(** * gen_score: the interview video analysis pipeline

    A shallow embedding of [app/services/video_service.py] and
    [app/services/api_service.py] (with the schema of
    [app/schemas/video_schema.py] and the settings of [app/config.py]),
    and the properties of the orchestration pipeline: discovery of the
    candidate files, sampling, per-video submission with partial-failure
    tolerance, aggregation and best-effort reporting.

    Python values are modelled as the code has them: [float] is IEEE
    binary64 (Rocq's primitive floats), [int] is [Z], [str] is [string]
    (a text outside ASCII by its UTF-8 bytes), a [dict] is a [gmap] keyed
    by strings, a raised exception is the [Raises] branch of an outcome.
    What lies outside the repository (the file system, the random
    source, the remote analysis service, the PDF renderer, the clock,
    and what differs between interpreters: the case tables of Unicode
    and the summation of [sum]) is a field of the record [World].  The
    standard library is the one of CPython 3.8 to 3.12 on POSIX. *)

From Stdlib Require Import ZArith List String Ascii Strings.Byte Floats Lia Bool.
From stdpp Require Import gmap strings list pretty.

Set Warnings "-register-all".
Local Open Scope Z_scope.

(** ** Exceptions and outcomes *)

(** The exception classes the pipeline can meet.  All of them derive from
    Python's [Exception], so an [except Exception] clause catches each.
    [OSError] stands for an error of the operating system that has no
    class of its own: a name too long. *)
Inductive exn :=
| FileNotFoundError
| NotADirectoryError
| IsADirectoryError
| PermissionError
| OSError
| ValueError
| TypeError
| AttributeError
| OverflowError
| ZeroDivisionError
| ValidationError
| RequestException
| RenderError.

Inductive outcome (A : Type) :=
| Returns (a : A)
| Raises (e : exn).
Arguments Returns {A} a.
Arguments Raises {A} e.

Definition is_returns {A} (o : outcome A) : bool :=
  match o with Returns _ => true | Raises _ => false end.

Definition is_raises {A} (o : outcome A) : bool := negb (is_returns o).

(** ** Python values *)

(** What [json.loads] yields and what a result dictionary holds. *)
Inductive pyval :=
| VNone
| VBool (b : bool)
| VInt (z : Z)
| VFloat (f : float)
| VStr (s : string)
| VList (l : list pyval)
| VDict (d : gmap string pyval).

Abbreviation pydict := (gmap string pyval).

(** Python truth value, as tested by [if not data]. *)
Definition truthy (v : pyval) : bool :=
  match v with
  | VNone => false
  | VBool b => b
  | VInt z => negb (z =? 0)
  | VFloat f => negb (PrimFloat.eqb f 0%float)
  | VStr s => negb (String.eqb s "")
  | VList l => match l with [] => false | _ => true end
  | VDict d => negb (bool_decide (d = ∅))
  end.

(** ** Floating-point arithmetic of the aggregate *)

Module PyFloat.

(** The binary64 nearest to an integer. *)
Definition nearest (n : Z) : float :=
  SF2Prim (binary_normalize prec emax n 0 false).

(** [float(n)] for an [int]: the nearest binary64, [OverflowError] beyond
    the range. *)
Definition of_Z (n : Z) : outcome float :=
  let f := nearest n in
  if is_infinity f then Raises OverflowError else Returns f.

(** The loop of [sum] over floats in CPython 3.12 and later, Neumaier's
    compensated summation: [f_result] is the running sum and [c] the
    running compensation. *)
Fixpoint compensated_loop (xs : list float) (f_result c : float) : float * float :=
  match xs with
  | [] => (f_result, c)
  | x :: xs' =>
      let t := (f_result + x)%float in
      let c' :=
        if (abs x <=? abs f_result)%float
        then (c + ((f_result - t) + x))%float
        else (c + ((x - t) + f_result))%float in
      compensated_loop xs' t c'
  end.

(** [sum(xs)] of floats.  Python starts from the integer 0, and the first
    item is added to it as a float.  Up to CPython 3.11 the other items
    are added from left to right in binary64; from 3.12 on they go
    through the compensated loop, and the compensation is added at the
    end when it is finite and not zero. *)
Definition py_sum (compensated : bool) (xs : list float) : float :=
  match xs with
  | [] => 0%float
  | x :: xs' =>
      let first := (0 + x)%float in
      if compensated then
        let (f_result, c) := compensated_loop xs' first 0 in
        if negb (c =? 0)%float && is_finite c then (f_result + c)%float
        else f_result
      else fold_left PrimFloat.add xs' first
  end.

(** [x / n] for a float [x] and the length [n] of a list: division by
    zero raises; a length stays below [2^63], out of reach of the
    [OverflowError] of [float(n)]. *)
Definition truediv (x : float) (n : Z) : outcome float :=
  if n =? 0 then Raises ZeroDivisionError
  else Returns (x / nearest n)%float.

(** The integer nearest to [n / d] ([d > 0]), ties to the even one. *)
Definition div_half_even (n d : Z) : Z :=
  let q := n / d in
  let r := n mod d in
  match 2 * r ?= d with
  | Lt => q
  | Gt => q + 1
  | Eq => if Z.even q then q else q + 1
  end.

(** [round(x, ndigits)] for a float and [ndigits >= 0]: the exact value of
    [x] is rounded half-even to a multiple of [10^-ndigits], and that
    decimal is converted back to the nearest binary64; the sign of [x] is
    kept, NaN and the infinities round to themselves. *)
Definition round (x : float) (ndigits : nat) : float :=
  match Prim2SF x with
  | S754_finite s m e =>
      let scale := 10 ^ Z.of_nat ndigits in
      let units :=
        if 0 <=? e then Z.pos m * 2 ^ e * scale
        else div_half_even (Z.pos m * scale) (2 ^ (- e)) in
      match units with
      | Z.pos p =>
          SF2Prim (SFdiv prec emax (S754_finite s p 0)
                     (S754_finite false (Z.to_pos scale) 0))
      | _ => if s then neg_zero else zero
      end
  | _ => x
  end.

End PyFloat.

(** ** Strings *)

Module Str.

(** [s.split(sep)] for a one-character separator. *)
Fixpoint split_on (sep : ascii) (s : string) : list string :=
  match s with
  | EmptyString => [EmptyString]
  | String c s' =>
      if Ascii.eqb c sep then EmptyString :: split_on sep s'
      else match split_on sep s' with
           | [] => [String c EmptyString]
           | t :: ts => String c t :: ts
           end
  end.

(** [sep.join(parts)]. *)
Fixpoint join (sep : string) (parts : list string) : string :=
  match parts with
  | [] => EmptyString
  | [p] => p
  | p :: ps => p +:+ sep +:+ join sep ps
  end.

(** [s.rfind(c)]: the index of the last occurrence, [-1] when absent. *)
Fixpoint rfind (c : ascii) (s : string) : Z :=
  match s with
  | EmptyString => -1
  | String a s' =>
      let r := rfind c s' in
      if 0 <=? r then r + 1 else if Ascii.eqb a c then 0 else -1
  end.

(** [s[i:]] for [i >= 0]. *)
Fixpoint drop (i : nat) (s : string) : string :=
  match i, s with
  | O, _ => s
  | S i', String _ s' => drop i' s'
  | S _, EmptyString => EmptyString
  end.

Definition lower_ascii (c : ascii) : ascii :=
  let n := nat_of_ascii c in
  if ((65 <=? n) && (n <=? 90))%nat then ascii_of_nat (n + 32) else c.

(** [s.lower()] on ASCII text: the letters [A] to [Z] become [a] to
    [z], every other character stays. *)
Fixpoint lower (s : string) : string :=
  match s with
  | EmptyString => EmptyString
  | String c s' => String (lower_ascii c) (lower s')
  end.

(** [s.isascii()]. *)
Fixpoint is_ascii (s : string) : bool :=
  match s with
  | EmptyString => true
  | String c s' => (nat_of_ascii c <? 128)%nat && is_ascii s'
  end.

Definition len (s : string) : Z := Z.of_nat (String.length s).

Definition starts_with (p s : string) : bool := String.prefix p s.

End Str.

(** ** Paths, as [pathlib] and [os.path] treat them on POSIX *)

Module PyPath.

Inductive anchor := Relative | Root | DoubleRoot.

(** A [PurePosixPath]: its root and its parts.  Parsing drops empty and
    ["."] components and keeps [".."]. *)
Record PurePath := { root : anchor; parts : list string }.

Definition parse_anchor (s : string) : anchor :=
  if Str.starts_with "///" s then Root
  else if Str.starts_with "//" s then DoubleRoot
  else if Str.starts_with "/" s then Root
  else Relative.

Definition keep_part (x : string) : bool :=
  negb (String.eqb x "") && negb (String.eqb x ".").

Definition parse (s : string) : PurePath :=
  {| root := parse_anchor s;
     parts := List.filter keep_part (Str.split_on "/" s) |}.

Definition anchor_str (a : anchor) : string :=
  match a with Relative => "" | Root => "/" | DoubleRoot => "//" end.

(** [str(p)]. *)
Definition to_str (p : PurePath) : string :=
  match root p, parts p with
  | Relative, [] => "."
  | a, ps => anchor_str a +:+ Str.join "/" ps
  end.

(** [p / s]: a rooted right operand replaces the left one. *)
Definition joinpath (p : PurePath) (s : string) : PurePath :=
  let q := parse s in
  match root q with
  | Relative => {| root := root p; parts := parts p ++ parts q |}
  | _ => q
  end.

(** The child path [iterdir] yields for a directory entry. *)
Definition child (p : PurePath) (name : string) : PurePath :=
  {| root := root p; parts := parts p ++ [name] |}.

(** [p.name] and [p.suffix]. *)
Definition name (p : PurePath) : string := List.last (parts p) "".

Definition suffix (p : PurePath) : string :=
  let name := name p in
  let i := Str.rfind "." name in
  if (0 <? i) && (i <? Str.len name - 1) then Str.drop (Z.to_nat i) name
  else "".

(** [os.path.basename(p)]. *)
Definition basename (p : string) : string :=
  let i := Str.rfind "/" p + 1 in
  Str.drop (Z.to_nat i) p.

(** [os.path.join(a, b)]. *)
Definition os_path_join (a b : string) : string :=
  if Str.starts_with "/" b then b
  else if String.eqb a "" || String.eqb (Str.drop (String.length a - 1) a) "/"
       then a +:+ b
       else a +:+ "/" +:+ b.

End PyPath.

(** ** The file system *)

Module FS.
Import PyPath.

(** A regular file (its bytes, [None] when it cannot be opened for
    reading) or a directory with its entries in listing order. *)
Inductive node :=
| File (content : option (list byte))
| Dir (entries : list (string * node)).

(** The tree, the working directory, and the limits of the operating
    system: [name_max] on the length of a name (255 on most Linux file
    systems) and [path_max] on the length of a path handed to a system
    call with its final NUL (4096 on Linux). *)
Record FileSystem := {
  tree : node;
  cwd : list string;
  name_max : nat;
  path_max : nat
}.

Fixpoint lookup_entry (name : string) (es : list (string * node)) : option node :=
  match es with
  | [] => None
  | (n, x) :: es' => if String.eqb n name then Some x else lookup_entry name es'
  end.

(** A position during path resolution: the directories entered so far,
    innermost first. *)
Definition trail := list (string * node).

Definition here (t : node) (tr : trail) : node :=
  match tr with
  | [] => t
  | (_, n) :: _ => n
  end.

(** The canonical location of a position: component names from the top. *)
Definition location (tr : trail) : list string := rev (map fst tr).

(** One component of a path: [".."] goes to the parent (the top is its
    own parent), a name enters the entry of that name.  A directory
    holds no name longer than [name_max]: asked for one, the file system
    answers ENAMETOOLONG, not ENOENT. *)
Definition enter (fs : FileSystem) (tr : trail) (seg : string) : outcome trail :=
  match here (tree fs) tr with
  | File _ => Raises NotADirectoryError
  | Dir es =>
      if String.eqb seg ".." then Returns (tail tr)
      else match lookup_entry seg es with
           | Some n => Returns ((seg, n) :: tr)
           | None =>
               if (name_max fs <? String.length seg)%nat then Raises OSError
               else Raises FileNotFoundError
           end
  end.

Fixpoint walk (fs : FileSystem) (tr : trail) (segs : list string) : outcome trail :=
  match segs with
  | [] => Returns tr
  | seg :: segs' =>
      match enter fs tr seg with
      | Returns tr' => walk fs tr' segs'
      | Raises e => Raises e
      end
  end.

(** Resolution of a path by the operating system, component by
    component. *)
Definition resolve (fs : FileSystem) (p : PurePath) : outcome trail :=
  match root p with
  | Relative =>
      match walk fs [] (cwd fs) with
      | Returns tr => walk fs tr (parts p)
      | Raises e => Raises e
      end
  | _ => walk fs [] (parts p)
  end.

(** A system call on the path [p] given as [text]: a text of [path_max]
    bytes or more is refused with ENAMETOOLONG before anything is looked
    up. *)
Definition stat_text (fs : FileSystem) (text : string) (p : PurePath) : outcome node :=
  if (path_max fs <=? String.length text)%nat then Raises OSError
  else
    match resolve fs p with
    | Returns tr => Returns (here (tree fs) tr)
    | Raises e => Raises e
    end.

(** [os.stat(p)] for a path object: the text is [str(p)]. *)
Definition stat (fs : FileSystem) (p : PurePath) : outcome node :=
  stat_text fs (to_str p) p.

(** The errors [pathlib] takes for "no such file": ENOENT and ENOTDIR
    (and EBADF and ELOOP, which this file system does not produce). *)
Definition ignore_error (e : exn) : bool :=
  match e with
  | FileNotFoundError | NotADirectoryError => true
  | _ => false
  end.

(** [p.exists()], [p.is_file()]: [stat] is tried; an error that
    [ignore_error] accepts gives [False], any other error is raised
    again. *)
Definition exists_ (fs : FileSystem) (p : PurePath) : outcome bool :=
  match stat fs p with
  | Returns _ => Returns true
  | Raises e => if ignore_error e then Returns false else Raises e
  end.

Definition is_file (fs : FileSystem) (p : PurePath) : outcome bool :=
  match stat fs p with
  | Returns (File _) => Returns true
  | Returns (Dir _) => Returns false
  | Raises e => if ignore_error e then Returns false else Raises e
  end.

(** [p.iterdir()]: the children of a directory, in listing order. *)
Definition iterdir (fs : FileSystem) (p : PurePath) : outcome (list PurePath) :=
  match stat fs p with
  | Returns (Dir es) => Returns (map (fun e => child p (fst e)) es)
  | Returns (File _) => Raises NotADirectoryError
  | Raises e => Raises e
  end.

(** [open(path, 'rb').read()]. *)
Definition read_bytes (fs : FileSystem) (path : string) : outcome (list byte) :=
  match stat_text fs path (parse path) with
  | Returns (File (Some bs)) => Returns bs
  | Returns (File None) => Raises PermissionError
  | Returns (Dir _) => Raises IsADirectoryError
  | Raises e => Raises e
  end.

End FS.

(** ** Configuration ([app/config.py]) *)

Record Settings := {
  VIDEO_BASE_PATH : string;
  NUM_RANDOM_VIDEOS : Z;
  EXTERNAL_API_URL : string;
  EXTERNAL_API_TIMEOUT : Z;
  PDF_OUTPUT_PATH : string;
  COMPANY_NAME : string;
  REPORT_LOGO_PATH : option string
}.

(** The defaults of [Settings]; the environment can override each. *)
Definition default_settings : Settings :=
  {| VIDEO_BASE_PATH := "/path/to/project/uploads/videos/internal";
     NUM_RANDOM_VIDEOS := 2;
     EXTERNAL_API_URL := "http://127.0.0.1:8000/api/v1/analyze-video";
     EXTERNAL_API_TIMEOUT := 300;
     PDF_OUTPUT_PATH := "./reports";
     COMPANY_NAME := "Your Company Name";
     REPORT_LOGO_PATH := None |}.

(** ** Schemas ([app/schemas/video_schema.py]) *)

(** A [datetime], held by its ISO text. *)
Record datetime := { isoformat : string }.

Record DetailedError := {
  error_type : string;
  from_time : float;
  to_time : float;
  confidence : float
}.

Record VideoAnalysisResponse := {
  video_name : string;
  total_duration : float;
  genuinity_score : float;
  total_penalty : float;
  errors_summary : gmap string (gmap string float);
  detailed_errors : list DetailedError;
  analysis_timestamp : datetime
}.

(** The per-video dictionary the pipeline appends to [analysis_results]:
    a literal with these four keys. *)
Record VideoSummary := {
  summary_video_name : string;
  summary_genuinity_score : float;
  summary_total_duration : float;
  summary_total_penalty : float
}.

Definition summary_dict (s : VideoSummary) : pydict :=
  {[ "video_name" := VStr (summary_video_name s);
     "genuinity_score" := VFloat (summary_genuinity_score s);
     "total_duration" := VFloat (summary_total_duration s);
     "total_penalty" := VFloat (summary_total_penalty s) ]}.

(** ** The world outside the repository *)

Record World := {
  settings : Settings;
  fs : FS.FileSystem;
  (** the successive raw outputs of the random source *)
  random_raw : nat -> nat;
  (** when [random.sample] draws again because the index drawn is
      selected already: how many draws in a row, from the [i]-th of the
      run on, fall on selected indices *)
  random_redraws : nat -> nat;
  (** [str.lower()] on a text with characters outside ASCII (the Unicode
      case tables of the interpreter) *)
  lower_unicode : string -> string;
  (** whether [sum()] carries a compensation term along, as CPython does
      from 3.12 on *)
  sum_compensated : bool;
  (** the [i]-th POST of a run, by its [video_blob]: the decoded JSON
      body, or the fault that [requests.post], [raise_for_status] or
      [response.json()] raises *)
  api_post : nat -> string -> outcome pyval;
  (** [float(s)] on a [str] *)
  float_of_str : string -> option float;
  (** [datetime.fromisoformat] and [datetime.now()] *)
  fromisoformat : string -> option datetime;
  now : datetime;
  (** [strftime("%Y%m%d_%H%M%S")] of the time a report is made *)
  report_stamp : string;
  (** the rendering of a report to [filepath] by reportlab: the fault
      raised, if any *)
  pdf_build : string -> string -> float -> list VideoSummary ->
              list VideoAnalysisResponse -> option exn
}.

(** [s.lower()]: on ASCII text it is [Str.lower]; on a text with other
    characters it is what the case tables of the interpreter make of
    it. *)
Definition str_lower (w : World) (s : string) : string :=
  if Str.is_ascii s then Str.lower s else lower_unicode w s.

(** ** Effects: a trace of what the run did, and exceptions *)

Inductive event :=
| EvRandom (bound : nat)
| EvOpen (path : string)
| EvPost (video_blob : string)
| EvReport (filepath : string).

Definition state := list event.

Definition is_random (e : event) : bool :=
  match e with EvRandom _ => true | _ => false end.

Definition is_post (e : event) : bool :=
  match e with EvPost _ => true | _ => false end.

Definition draws (st : state) : nat := length (List.filter is_random st).
Definition posts (st : state) : nat := length (List.filter is_post st).

Definition M (A : Type) : Type := state -> outcome A * state.

Definition ret {A} (a : A) : M A := fun st => (Returns a, st).

Definition raise {A} (e : exn) : M A := fun st => (Raises e, st).

Definition bind {A B} (m : M A) (k : A -> M B) : M B :=
  fun st =>
    match m st with
    | (Returns a, st') => k a st'
    | (Raises e, st') => (Raises e, st')
    end.

(** [try: m except Exception as e: ...]: the outcome of [m], reified. *)
Definition try_ {A} (m : M A) : M (outcome A) :=
  fun st => let (o, st') := m st in (Returns o, st').

Definition lift {A} (o : outcome A) : M A := fun st => (o, st).

Definition emit (e : event) : M unit := fun st => (Returns tt, st ++ [e]).

Declare Scope py_scope.
Delimit Scope py_scope with py.
Notation "x <- m ;; k" := (bind m (fun x => k))
  (at level 100, m at next level, right associativity) : py_scope.
Notation "m ;; k" := (bind m (fun _ => k))
  (at level 100, right associativity) : py_scope.
Local Open Scope py_scope.

(** ** [base64.b64encode] *)

Module Base64.

Definition alphabet : string :=
  "ABCDEFGHIJKLMNOPQRSTUVWXYZabcdefghijklmnopqrstuvwxyz0123456789+/".

Definition digit (n : N) : ascii :=
  match String.get (N.to_nat n) alphabet with
  | Some c => c
  | None => "="%char
  end.

Fixpoint b64encode (bs : list byte) : string :=
  match bs with
  | [] => ""
  | [a] =>
      let x := Byte.to_N a in
      String (digit (x / 4)) (String (digit (x mod 4 * 16)) "==")
  | [a; b] =>
      let x := Byte.to_N a in
      let y := Byte.to_N b in
      String (digit (x / 4))
        (String (digit (x mod 4 * 16 + y / 16))
           (String (digit (y mod 16 * 4)) "="))
  | a :: b :: c :: rest =>
      let x := Byte.to_N a in
      let y := Byte.to_N b in
      let z := Byte.to_N c in
      String (digit (x / 4))
        (String (digit (x mod 4 * 16 + y / 16))
           (String (digit (y mod 16 * 4 + z / 64))
              (String (digit (z mod 64)) (b64encode rest))))
  end%N.

End Base64.

(** ** [app/services/api_service.py] *)

Module APIService.

(** [d.get(key, default)] on a value that must be a [dict]. *)
Definition as_dict (v : pyval) : outcome pydict :=
  match v with
  | VDict d => Returns d
  | _ => Raises AttributeError
  end.

Definition get (d : pydict) (key : string) (default : pyval) : pyval :=
  match d !! key with
  | Some v => v
  | None => default
  end.

(** The builtin [float(v)]. *)
Definition py_float (w : World) (v : pyval) : outcome float :=
  match v with
  | VFloat f => Returns f
  | VInt z => PyFloat.of_Z z
  | VBool b => Returns (if b then 1%float else 0%float)
  | VStr s =>
      match float_of_str w s with
      | Some f => Returns f
      | None => Raises ValueError
      end
  | VNone | VList _ | VDict _ => Raises TypeError
  end.

(** Validation of a field annotated [float] by the schema. *)
Definition validate_float (w : World) (v : pyval) : outcome float :=
  match py_float w v with
  | Returns f => Returns f
  | Raises _ => Raises ValidationError
  end.

Definition validate_str (v : pyval) : outcome string :=
  match v with
  | VStr s => Returns s
  | _ => Raises ValidationError
  end.

(** All values of a dictionary validated, the keys kept; the first
    failure is raised. *)
Definition validate_values {A} (f : pyval -> outcome A) (d : pydict)
  : outcome (gmap string A) :=
  map_fold
    (fun k v acc =>
       match acc with
       | Returns m =>
           match f v with
           | Returns a => Returns (<[k := a]> m)
           | Raises e => Raises e
           end
       | Raises e => Raises e
       end)
    (Returns ∅) d.

(** Validation of a field annotated [Dict[str, float]] and of one
    annotated [Dict[str, Dict[str, float]]]. *)
Definition validate_metrics (w : World) (v : pyval) : outcome (gmap string float) :=
  match v with
  | VDict d => validate_values (validate_float w) d
  | _ => Raises ValidationError
  end.

Definition validate_errors_summary (w : World) (v : pyval)
  : outcome (gmap string (gmap string float)) :=
  match v with
  | VDict d => validate_values (validate_metrics w) d
  | _ => Raises ValidationError
  end.

Definition required (d : pydict) (key : string) : outcome pyval :=
  match d !! key with
  | Some v => Returns v
  | None => Raises ValidationError
  end.

(** [DetailedError] built from the keyword arguments [error]: [error]
    must be a mapping; the four fields are required, other keys are
    ignored. *)
Definition new_DetailedError (w : World) (error : pyval) : outcome DetailedError :=
  match error with
  | VDict kw =>
      match required kw "error_type", required kw "from_time",
            required kw "to_time", required kw "confidence" with
      | Returns v_type, Returns v_from, Returns v_to, Returns v_conf =>
          match validate_str v_type, validate_float w v_from,
                validate_float w v_to, validate_float w v_conf with
          | Returns ty, Returns t0, Returns t1, Returns cf =>
              Returns {| error_type := ty; from_time := t0;
                         to_time := t1; confidence := cf |}
          | _, _, _, _ => Raises ValidationError
          end
      | _, _, _, _ => Raises ValidationError
      end
  | _ => Raises TypeError
  end.

(** The items a [for] loop over a JSON value visits: the elements of a
    list, the keys of a dict, the characters of a string. *)
Definition iterate (v : pyval) : outcome (list pyval) :=
  match v with
  | VList l => Returns l
  | VDict d => Returns (map (fun kv => VStr (fst kv)) (map_to_list d))
  | VStr s => Returns (map (fun c => VStr (String c "")) (list_ascii_of_string s))
  | _ => Raises TypeError
  end.

(** [[f(x) for x in xs]]: the first fault ends the comprehension. *)
Fixpoint comprehension {A B} (f : A -> outcome B) (xs : list A) : outcome (list B) :=
  match xs with
  | [] => Returns []
  | x :: xs' =>
      match f x with
      | Returns b =>
          match comprehension f xs' with
          | Returns bs => Returns (b :: bs)
          | Raises e => Raises e
          end
      | Raises e => Raises e
      end
  end.

Definition parse_timestamp (w : World) (v : pyval) : outcome datetime :=
  match v with
  | VStr s =>
      match fromisoformat w s with
      | Some t => Returns t
      | None => Raises ValueError
      end
  | _ => Raises TypeError
  end.

(** The parsing of the response body into the schema (the part of
    [analyze_video] after [response.json()]). *)
Definition parse_response (w : World) (video_name : string) (response_json : pyval)
  : outcome VideoAnalysisResponse :=
  match as_dict response_json with
  | Raises e => Raises e
  | Returns body =>
      let data := get body "data" (VDict ∅) in
      if negb (truthy data) then Raises ValueError
      else
        match as_dict data with
        | Raises e => Raises e
        | Returns data =>
            match py_float w (get data "total_duration" (VFloat 0)) with
            | Raises e => Raises e
            | Returns total_duration =>
            match py_float w (get data "genuinity_score" (VFloat 0)) with
            | Raises e => Raises e
            | Returns genuinity_score =>
            match py_float w (get data "total_penalty" (VFloat 0)) with
            | Raises e => Raises e
            | Returns total_penalty =>
            let errors_summary := get data "errors_summary" (VDict ∅) in
            match iterate (get data "detailed_errors" (VList [])) with
            | Raises e => Raises e
            | Returns errors =>
            match comprehension (new_DetailedError w) errors with
            | Raises e => Raises e
            | Returns detailed_errors =>
            match parse_timestamp w
                    (get data "analysis_timestamp" (VStr (isoformat (now w)))) with
            | Raises e => Raises e
            | Returns analysis_timestamp =>
            match validate_errors_summary w errors_summary with
            | Raises e => Raises e
            | Returns errors_summary =>
                Returns {| video_name := video_name;
                           total_duration := total_duration;
                           genuinity_score := genuinity_score;
                           total_penalty := total_penalty;
                           errors_summary := errors_summary;
                           detailed_errors := detailed_errors;
                           analysis_timestamp := analysis_timestamp |}
            end end end end end end end
        end
  end.

(** [APIService.analyze_video]: one POST, then the parsing; every fault
    is logged and raised again. *)
Definition analyze_video (w : World) (video_base64 video_name : string)
  : M VideoAnalysisResponse :=
  fun st =>
    let i := posts st in
    (response_json <- (emit (EvPost video_base64);; lift (api_post w i video_base64));;
     lift (parse_response w video_name response_json)) st.

End APIService.

(** ** [app/services/pdf_service.py] *)

Module PDFService.

(** [PDFService.generate_report]: the file name is made of the interview
    id and the time stamp, the document is built by reportlab, and the
    path of the file is returned. *)
Definition generate_report (w : World) (interview_id : string) (average_score : float)
    (individual_results : list VideoSummary)
    (detailed_analyses : list VideoAnalysisResponse) : M string :=
  let filename := interview_id +:+ "_" +:+ report_stamp w +:+ ".pdf" in
  let filepath := PyPath.os_path_join (PDF_OUTPUT_PATH (settings w)) filename in
  emit (EvReport filepath);;
  match pdf_build w filepath interview_id average_score
          individual_results detailed_analyses with
  | Some e => raise e
  | None => ret filepath
  end.

End PDFService.

(** ** [app/services/video_service.py] *)

Module VideoService.
Import PyPath.

(** Supported video formats. *)
Definition video_extensions : list string :=
  [".mp4"; ".avi"; ".mov"; ".mkv"; ".flv"; ".wmv"].

(** [x in xs] on strings. *)
Definition str_in (x : string) (xs : list string) : bool :=
  existsb (String.eqb x) xs.

(** The loop of [get_video_files] over the directory listing; a fault
    of [is_file] ends it. *)
Fixpoint collect_video_files (w : World) (listing : list PurePath)
    (video_files : list string) : outcome (list string) :=
  match listing with
  | [] => Returns video_files
  | file :: rest =>
      match FS.is_file (fs w) file with
      | Raises e => Raises e
      | Returns regular =>
          if regular && str_in (str_lower w (suffix file)) video_extensions
          then collect_video_files w rest (video_files ++ [to_str file])
          else collect_video_files w rest video_files
      end
  end.

(** [Path(settings.VIDEO_BASE_PATH) / interview_id]. *)
Definition video_folder (w : World) (interview_id : string) : PurePath :=
  joinpath (parse (VIDEO_BASE_PATH (settings w))) interview_id.

(** Get all video files for a given interview_id. *)
Definition get_video_files (w : World) (interview_id : string) : outcome (list string) :=
  let video_folder := video_folder w interview_id in
  match FS.exists_ (fs w) video_folder with
  | Raises e => Raises e
  | Returns false => Returns []
  | Returns true =>
      match FS.iterdir (fs w) video_folder with
      | Returns listing => collect_video_files w listing []
      | Raises e => Raises e
      end
  end.

(** [random.Random._randbelow(n)]: the next output of the random source,
    brought below [n]. *)
Definition randbelow (w : World) (n : nat) : M nat :=
  fun st => (Returns (random_raw w (draws st) mod n)%nat, st ++ [EvRandom n]).

(** The selection loop of [random.sample] for a population of at most
    [setsize] items: an index below the size of the
    pool is drawn, the item there is selected, and the last item of the
    pool is moved into the vacancy. *)
Fixpoint sample_pool {A} (w : World) (pool : list A) (k : nat) : M (list A) :=
  match k with
  | O => ret []
  | S k' =>
      j <- randbelow w (length pool);;
      match pool !! j, last pool with
      | Some x, Some y =>
          selected <- sample_pool w (take (length pool - 1) (<[j := y]> pool)) k';;
          ret (x :: selected)
      | _, _ => raise ValueError
      end
  end.

(** The size of population up to which [random.sample] selects from a
    copy of the list: [setsize = 21], and [4 ** ceil(log(k * 3, 4))] more
    when [k > 5] (the power of 4 is computed here on integers). *)
Definition setsize (k : nat) : nat :=
  if (k <=? 5)%nat then 21%nat
  else (21 + Z.to_nat (4 ^ ((Z.log2_up (3 * Z.of_nat k) + 1) / 2)))%nat.

(** The indices below [n] that are not in [selected], in increasing
    order. *)
Definition unselected (n : nat) (selected : list nat) : list nat :=
  List.filter (fun j => negb (existsb (Nat.eqb j) selected)) (seq 0 n).

(** [j = randbelow(n)] and [while j in selected: j = randbelow(n)].  A
    run of the loop that ends is a number of draws that fall on selected
    indices and one draw that does not.  The random source decides both:
    how many draws collide (none while nothing is selected), and which of
    the indices still free the last draw gives, its output being brought
    among them as [randbelow] brings it below [n].  Every draw is a call
    of [randbelow(n)]. *)
Definition draw_unselected (w : World) (n : nat) (selected : list nat) : M nat :=
  fun st =>
    let collisions :=
      match selected with
      | [] => O
      | _ => random_redraws w (draws st)
      end in
    let st' := st ++ replicate collisions (EvRandom n) in
    let free := unselected n selected in
    (Returns (nth (random_raw w (draws st') mod length free) free O),
     st' ++ [EvRandom n]).

(** The selection loop of [random.sample] for a population above
    [setsize]: an index that is not selected yet is drawn and the item
    there is selected. *)
Fixpoint sample_set {A} (w : World) (population : list A) (selected : list nat)
    (k : nat) : M (list A) :=
  match k with
  | O => ret []
  | S k' =>
      j <- draw_unselected w (length population) selected;;
      match population !! j with
      | Some x =>
          result <- sample_set w population (j :: selected) k';;
          ret (x :: result)
      | None => raise ValueError
      end
  end.

(** [random.sample(population, k)]. *)
Definition sample {A} (w : World) (population : list A) (k : Z) : M (list A) :=
  if (0 <=? k) && (k <=? Z.of_nat (length population))
  then
    if (length population <=? setsize (Z.to_nat k))%nat
    then sample_pool w population (Z.to_nat k)
    else sample_set w population [] (Z.to_nat k)
  else raise ValueError.

(** Randomly select n videos from the list. *)
Definition select_random_videos (w : World) (video_files : list string)
    (num_videos : option Z) : M (list string) :=
  let num_videos :=
    match num_videos with
    | None => NUM_RANDOM_VIDEOS (settings w)
    | Some n => n
    end in
  if Z.of_nat (length video_files) <=? num_videos then ret video_files
  else sample w video_files num_videos.

(** Convert video file to base64 encoded string. *)
Definition video_to_base64 (w : World) (video_path : string) : M string :=
  emit (EvOpen video_path);;
  video_data <- lift (FS.read_bytes (fs w) video_path);;
  ret (Base64.b64encode video_data).

(** The body of the [try] in the loop of [analyze_videos]. *)
Definition process_video (w : World) (video_path : string)
  : M (VideoSummary * VideoAnalysisResponse) :=
  let video_name := basename video_path in
  video_base64 <- video_to_base64 w video_path;;
  analysis <- APIService.analyze_video w video_base64 video_name;;
  ret ({| summary_video_name := video_name;
          summary_genuinity_score := genuinity_score analysis;
          summary_total_duration := total_duration analysis;
          summary_total_penalty := total_penalty analysis |},
       analysis).

(** The loop of [analyze_videos]: a video whose processing raises is
    logged and skipped. *)
Fixpoint analyze_each (w : World) (selected_videos : list string)
    (analysis_results : list VideoSummary)
    (detailed_analyses : list VideoAnalysisResponse)
  : M (list VideoSummary * list VideoAnalysisResponse) :=
  match selected_videos with
  | [] => ret (analysis_results, detailed_analyses)
  | video_path :: rest =>
      r <- try_ (process_video w video_path);;
      match r with
      | Returns (summary, analysis) =>
          analyze_each w rest (analysis_results ++ [summary])
            (detailed_analyses ++ [analysis])
      | Raises _ => analyze_each w rest analysis_results detailed_analyses
      end
  end.

Definition is_empty {A} (l : list A) : bool :=
  match l with [] => true | _ => false end.

Definition no_videos_result (interview_id : string) : pydict :=
  {[ "status" := VStr "error";
     "message" := VStr ("No videos found for interview_id: " +:+ interview_id) ]}.

Definition all_failed_result : pydict :=
  {[ "status" := VStr "error";
     "message" := VStr "Failed to analyze any videos" ]}.

Definition opt_str (o : outcome string) : pyval :=
  match o with
  | Returns p => VStr p
  | Raises _ => VNone
  end.

Definition success_result (interview_id : string)
    (analysis_results : list VideoSummary) (avg_score : float) (pdf_path : pyval)
  : pydict :=
  {[ "interview_id" := VStr interview_id;
     "videos_analyzed" := VInt (Z.of_nat (length analysis_results));
     "average_genuinity_score" := VFloat (PyFloat.round avg_score 4);
     "individual_scores" := VList (map (fun r => VDict (summary_dict r)) analysis_results);
     "status" := VStr "success";
     "message" := VStr ("Successfully analyzed "
                        +:+ pretty (length analysis_results) +:+ " videos");
     "pdf_report_path" := pdf_path ]}.

(** Main method to analyze videos for an interview. *)
Definition analyze_videos (w : World) (interview_id : string) (num_videos : option Z)
  : M pydict :=
  video_files <- lift (get_video_files w interview_id);;
  if is_empty video_files then ret (no_videos_result interview_id)
  else
    selected_videos <- select_random_videos w video_files num_videos;;
    analyses <- analyze_each w selected_videos [] [];;
    let analysis_results := fst analyses in
    let detailed_analyses := snd analyses in
    if is_empty analysis_results then ret all_failed_result
    else
      avg_score <- lift (PyFloat.truediv
                           (PyFloat.py_sum (sum_compensated w)
                              (map summary_genuinity_score analysis_results))
                           (Z.of_nat (length analysis_results)));;
      pdf <- try_ (PDFService.generate_report w interview_id avg_score
                     analysis_results detailed_analyses);;
      ret (success_result interview_id analysis_results avg_score (opt_str pdf)).

End VideoService.

(** ** [app/controllers/video_controller.py] *)

Module VideoController.

(** The schemas of the request and of the response
    ([app/schemas/video_schema.py]). *)
Record AnalyzeRequest := {
  interview_id : string;
  num_videos : option Z
}.

Record AnalyzeResponse := {
  response_interview_id : string;
  videos_analyzed : Z;
  average_genuinity_score : float;
  individual_scores : list pydict;
  status : string;
  message : string;
  pdf_report_path : option string
}.

(** What the controller takes from the Python runtime: the text [str(e)]
    of an exception, and the conversion the schema library applies to a
    value given for an [int] field when it is not an [int]. *)
Record Runtime := {
  exn_text : exn -> string;
  int_of_other : pyval -> option Z
}.

(** What the controller gives to the framework: a response, or an
    [HTTPException] with its status code and detail. *)
Inductive answer :=
| Responds (response : AnalyzeResponse)
| HTTPException (status_code : Z) (detail : pyval).

Definition validate_int (rt : Runtime) (v : pyval) : outcome Z :=
  match v with
  | VInt z => Returns z
  | _ =>
      match int_of_other rt v with
      | Some z => Returns z
      | None => Raises ValidationError
      end
  end.

Definition validate_dict (v : pyval) : outcome pydict :=
  match v with
  | VDict d => Returns d
  | _ => Raises ValidationError
  end.

Definition validate_dicts (v : pyval) : outcome (list pydict) :=
  match v with
  | VList l =>
      match APIService.comprehension validate_dict l with
      | Returns ds => Returns ds
      | Raises _ => Raises ValidationError
      end
  | _ => Raises ValidationError
  end.

Definition validate_optional_str (v : option pyval) : outcome (option string) :=
  match v with
  | None | Some VNone => Returns None
  | Some (VStr s) => Returns (Some s)
  | Some _ => Raises ValidationError
  end.

(** [AnalyzeResponse] built from the keyword arguments [kw]: six fields
    are required, [pdf_report_path] defaults to [None], other keys are
    ignored. *)
Definition new_AnalyzeResponse (rt : Runtime) (w : World) (kw : pydict)
  : outcome AnalyzeResponse :=
  match APIService.required kw "interview_id", APIService.required kw "videos_analyzed",
        APIService.required kw "average_genuinity_score",
        APIService.required kw "individual_scores",
        APIService.required kw "status", APIService.required kw "message" with
  | Returns v_id, Returns v_count, Returns v_avg, Returns v_scores,
    Returns v_status, Returns v_message =>
      match APIService.validate_str v_id, validate_int rt v_count,
            APIService.validate_float w v_avg, validate_dicts v_scores,
            APIService.validate_str v_status, APIService.validate_str v_message,
            validate_optional_str (kw !! "pdf_report_path") with
      | Returns id, Returns count, Returns avg, Returns scores,
        Returns status, Returns message, Returns pdf =>
          Returns {| response_interview_id := id;
                     videos_analyzed := count;
                     average_genuinity_score := avg;
                     individual_scores := scores;
                     status := status;
                     message := message;
                     pdf_report_path := pdf |}
      | _, _, _, _, _, _, _ => Raises ValidationError
      end
  | _, _, _, _, _, _ => Raises ValidationError
  end.

(** [v == s] for a string [s]. *)
Definition eq_str (v : pyval) (s : string) : bool :=
  match v with
  | VStr t => String.eqb t s
  | _ => false
  end.

Definition internal_error (text : string) : answer :=
  HTTPException 500 (VStr ("Internal server error: " +:+ text)).

(** Controller method to handle interview analysis: an error result
    becomes a 404 with the message as detail, any other exception a
    500. *)
Definition analyze_interview (rt : Runtime) (w : World) (request : AnalyzeRequest)
  : state -> answer * state :=
  fun st =>
    match VideoService.analyze_videos w (interview_id request) (num_videos request) st with
    | (Raises e, st') => (internal_error (exn_text rt e), st')
    | (Returns result, st') =>
        match result !! "status" with
        | None => (internal_error "'status'", st')
        | Some s =>
            if eq_str s "error" then
              match result !! "message" with
              | None => (internal_error "'message'", st')
              | Some m => (HTTPException 404 m, st')
              end
            else
              match new_AnalyzeResponse rt w result with
              | Returns response => (Responds response, st')
              | Raises e => (internal_error (exn_text rt e), st')
              end
        end
    end.

End VideoController.

(** * The vocabulary of the properties *)

Import VideoService.

(** ** The items of a run *)

(** The outcome of processing each selected video in turn. *)
Fixpoint item_outcomes (w : World) (selected_videos : list string) (st : state)
  : list (outcome (VideoSummary * VideoAnalysisResponse)) :=
  match selected_videos with
  | [] => []
  | video_path :: rest =>
      let (o, st') := process_video w video_path st in
      o :: item_outcomes w rest st'
  end.

(** The state the run is in after the loop. *)
Fixpoint after_items (w : World) (selected_videos : list string) (st : state) : state :=
  match selected_videos with
  | [] => st
  | video_path :: rest => after_items w rest (snd (process_video w video_path st))
  end.

(** The values of the items that returned, in order, and the number of
    items that raised. *)
Fixpoint successes {A} (os : list (outcome A)) : list A :=
  match os with
  | [] => []
  | Returns a :: os' => a :: successes os'
  | Raises _ :: os' => successes os'
  end.


(** The mean the pipeline computes over a list of scores, before
    rounding. *)
Definition mean (w : World) (scores : list float) : float :=
  (PyFloat.py_sum (sum_compensated w) scores
   / PyFloat.nearest (Z.of_nat (length scores)))%float.

(** ** Exact arithmetic *)

(** Every finite binary64 number is an integer multiple of [2^-1074]:
    [units x] is that integer, so that the value of [x] is
    [units x / 2^1074]. *)
Definition sf_units (x : spec_float) : Z :=
  match x with
  | S754_finite s m e => cond_Zopp s (Z.pos m * 2 ^ (e + 1074))
  | _ => 0
  end.

Definition sf_finite (x : spec_float) : bool :=
  match x with
  | S754_nan | S754_infinity _ => false
  | _ => true
  end.

Definition units (x : float) : Z := sf_units (Prim2SF x).

(** Neither NaN nor an infinity. *)
Definition finite (x : float) : Prop := sf_finite (Prim2SF x) = true.

(** The number [u / 2^1074] is a binary64 number. *)
Definition representable (u : Z) : Prop := exists g, finite g /\ units g = u.

(** The sum of the numbers of a list, in exact arithmetic. *)
Definition exact_sum (xs : list float) : Z :=
  foldr (fun x total => units x + total) 0 xs.

(** The numbers are finite and the sum of every initial part of the list
    is a binary64 number: adding them from left to right never rounds. *)
Definition sums_exactly (xs : list float) : Prop :=
  Forall finite xs /\
  forall k, (k <= length xs)%nat -> representable (exact_sum (take k xs)).





(** ** The sampler *)

(** The target count in force: the argument, or the configured default. *)
Definition requested (w : World) (num_videos : option Z) : Z :=
  match num_videos with
  | None => NUM_RANDOM_VIDEOS (settings w)
  | Some n => n
  end.

(** ** Reporting *)

(** The same world with another PDF renderer. *)
Definition with_pdf_build (w : World)
    (build : string -> string -> float -> list VideoSummary ->
             list VideoAnalysisResponse -> option exn) : World :=
  {| settings := settings w;
     fs := fs w;
     random_raw := random_raw w;
     random_redraws := random_redraws w;
     lower_unicode := lower_unicode w;
     sum_compensated := sum_compensated w;
     api_post := api_post w;
     float_of_str := float_of_str w;
     fromisoformat := fromisoformat w;
     now := now w;
     report_stamp := report_stamp w;
     pdf_build := build |}.

(** ** File names *)

Definition chars (s : string) : list ascii := list_ascii_of_string s.

(** [name] is [stem.ext]: a stem that is not empty, a dot, and an
    extension that is not empty and has no dot. *)
Definition has_extension (name ext : string) : Prop :=
  exists stem,
    name = stem +:+ "." +:+ ext /\
    stem <> "" /\ ext <> "" /\ ~ In "."%char (chars ext).

(** The allow-list of the specification. *)
Definition video_formats : list string :=
  ["mp4"; "avi"; "mov"; "mkv"; "flv"; "wmv"].

(** The letters of the two cases, in pairs. *)
Definition uppercase : string := "ABCDEFGHIJKLMNOPQRSTUVWXYZ".
Definition lowercase : string := "abcdefghijklmnopqrstuvwxyz".
Definition case_pairs : list (ascii * ascii) :=
  combine (chars uppercase) (chars lowercase).

(** Two characters that are the same, or the two cases of one letter. *)
Definition same_letter (a b : ascii) : Prop :=
  a = b \/ In (a, b) case_pairs \/ In (b, a) case_pairs.

(** Two texts that are equal without regard to case. *)
Definition equal_ignoring_case (s t : string) : Prop :=
  Forall2 same_letter (chars s) (chars t).

(** A name whose extension is in the allow-list, whatever its case.  For
    an extension with characters outside ASCII, what case is lies with
    the case tables of the interpreter: the extension is in the
    allow-list when they lower it to one of the formats. *)
Definition is_video_name (w : World) (name : string) : Prop :=
  exists ext,
    has_extension name ext /\
    if Str.is_ascii ext
    then exists format, In format video_formats /\ equal_ignoring_case ext format
    else In (lower_unicode w ("." +:+ ext)) (map (fun format => "." +:+ format) video_formats).

(** [p.suffix], as a function of the name. *)
Definition suffix_of (name : string) : string :=
  let i := Str.rfind "." name in
  if (0 <? i) && (i <? Str.len name - 1) then Str.drop (Z.to_nat i) name
  else "".

(** The test [get_video_files] applies to an item of the listing, where
    [is_file] returns. *)
Definition is_video_file (w : World) (file : PyPath.PurePath) : bool :=
  match FS.is_file (fs w) file with
  | Returns regular =>
      regular && str_in (str_lower w (PyPath.suffix file)) video_extensions
  | Raises _ => false
  end.

(** Nothing is at the storage location of the id. *)
Definition nothing_at (w : World) (interview_id : string) : Prop :=
  forall tr, FS.resolve (fs w) (video_folder w interview_id) <> Returns tr.


(** ** Confinement to the storage root *)

(** [Path(settings.VIDEO_BASE_PATH)]. *)
Definition storage_root (w : World) : PyPath.PurePath :=
  PyPath.parse (VIDEO_BASE_PATH (settings w)).

(** An id with a path-traversal segment. *)
Definition has_traversal (interview_id : string) : Prop :=
  In ".." (PyPath.parts (PyPath.parse interview_id)).

(** The locator refuses the id. *)
Definition rejects (w : World) (interview_id : string) : Prop :=
  exists e, get_video_files w interview_id = Raises e.

(** The directory the locator reads for the id, when there is one, lies
    at or below the storage root. *)
Definition confined (w : World) (interview_id : string) : Prop :=
  forall tr,
    FS.resolve (fs w) (video_folder w interview_id) = Returns tr ->
    exists tr0,
      FS.resolve (fs w) (storage_root w) = Returns tr0 /\
      FS.location tr0 `prefix_of` FS.location tr.

(** The claim of the specification on ids with traversal segments. *)
Definition traversal_is_blocked : Prop :=
  forall w interview_id,
    has_traversal interview_id ->
    rejects w interview_id \/ confined w interview_id.

(** ** The values of the analysis client *)

(** The error categories appearing in [detailed_errors]. *)
Definition categories (a : VideoAnalysisResponse) : gset string :=
  list_to_set (map error_type (detailed_errors a)).

(** The invariant of the data model. *)
Definition summary_within_details (a : VideoAnalysisResponse) : Prop :=
  dom (errors_summary a) ⊆ categories a.

(** The claim of the specification on the values the client produces. *)
Definition client_keeps_invariant : Prop :=
  forall w video_base64 video_name st a st',
    APIService.analyze_video w video_base64 video_name st = (Returns a, st') ->
    summary_within_details a.

(** The [data] object of a response body. *)
Definition response_data (response_json : pyval) : pydict :=
  match response_json with
  | VDict body =>
      match APIService.get body "data" (VDict ∅) with
      | VDict data => data
      | _ => ∅
      end
  | _ => ∅
  end.

(** The keys of the [errors_summary] the service sent. *)
Definition sent_summary_keys (response_json : pyval) : gset string :=
  match APIService.get (response_data response_json) "errors_summary" (VDict ∅) with
  | VDict d => dom d
  | _ => ∅
  end.

(** The category of one item of the [detailed_errors] sent. *)
Definition sent_category (error : pyval) : option string :=
  match error with
  | VDict kw =>
      match kw !! "error_type" with
      | Some (VStr s) => Some s
      | _ => None
      end
  | _ => None
  end.

(** The categories of the [detailed_errors] the service sent. *)
Definition sent_categories (response_json : pyval) : gset string :=
  match APIService.get (response_data response_json) "detailed_errors" (VList []) with
  | VList errors => list_to_set (omap sent_category errors)
  | _ => ∅
  end.

(** ** What a trace records *)

(** The files opened, the payloads posted, the bounds of the random
    draws and the reports started, each in the order of the run. *)
Definition opened (st : state) : list string :=
  omap (fun e => match e with EvOpen p => Some p | _ => None end) st.

Definition posted (st : state) : list string :=
  omap (fun e => match e with EvPost b => Some b | _ => None end) st.

Definition drawn (st : state) : list nat :=
  omap (fun e => match e with EvRandom n => Some n | _ => None end) st.

Definition reported (st : state) : list string :=
  omap (fun e => match e with EvReport f => Some f | _ => None end) st.

(** The bytes of a file that can be read. *)
Definition readable (w : World) (path : string) : option (list byte) :=
  match FS.read_bytes (fs w) path with
  | Returns bs => Some bs
  | Raises _ => None
  end.

(** The bounds [n, n - 1, ...] of [k] successive draws from a pool of
    [n] items. *)
Fixpoint countdown (n k : nat) : list nat :=
  match k with
  | O => []
  | S k' => n :: countdown (n - 1) k'
  end.

(** The path of the report of an interview. *)
Definition report_path (w : World) (interview_id : string) : string :=
  PyPath.os_path_join (PDF_OUTPUT_PATH (settings w))
    (interview_id +:+ "_" +:+ report_stamp w +:+ ".pdf").

(** ** Paths as text *)

(** A path component as a directory can hold it: not empty, not ["."],
    without a slash. *)
Definition clean_part (x : string) : Prop :=
  PyPath.keep_part x = true /\ ~ In "/"%char (chars x).

(** What precedes the name in the text of a child of [p]: nothing for the
    empty relative path, else the text of [p] before the separating
    slash. *)
Definition dir_prefix (p : PyPath.PurePath) : option string :=
  match PyPath.root p, PyPath.parts p with
  | PyPath.Relative, [] => None
  | PyPath.Root, [] => Some ""
  | PyPath.DoubleRoot, [] => Some "/"
  | a, ps => Some (PyPath.anchor_str a +:+ Str.join "/" ps)
  end.

(** ** Base64 decoding *)

(** The value of a base64 digit. *)
Fixpoint index_of (c : ascii) (s : string) (i : N) : option N :=
  match s with
  | EmptyString => None
  | String a s' => if Ascii.eqb a c then Some i else index_of c s' (i + 1)
  end.

Definition undigit (c : ascii) : option N := index_of c Base64.alphabet 0.

Definition byte_of (n : N) : byte := default x00 (Byte.of_N n).

(** The decoding the receiver of a payload applies (RFC 4648, with
    padding): four digits give three bytes, and a last group padded with
    one or two [=] gives two bytes or one. *)
Fixpoint b64decode (s : string) : option (list byte) :=
  match s with
  | EmptyString => Some []
  | String a (String b (String c (String d rest))) =>
      match undigit a, undigit b with
      | Some x, Some y =>
          if Ascii.eqb c "=" then
            if Ascii.eqb d "=" && String.eqb rest ""
            then Some [byte_of (x * 4 + y / 16)]
            else None
          else
            match undigit c with
            | Some z =>
                if Ascii.eqb d "=" then
                  if String.eqb rest ""
                  then Some [byte_of (x * 4 + y / 16);
                             byte_of (y mod 16 * 16 + z / 4)]
                  else None
                else
                  match undigit d, b64decode rest with
                  | Some u, Some bs =>
                      Some (byte_of (x * 4 + y / 16)
                            :: byte_of (y mod 16 * 16 + z / 4)
                            :: byte_of (z mod 4 * 64 + u) :: bs)
                  | _, _ => None
                  end
            | None => None
            end
      | _, _ => None
      end
  | _ => None
  end%N.

(** A digit that decodes to its value and is not the padding. *)
Definition digit_ok (n : N) : bool :=
  match undigit (Base64.digit n) with
  | Some m => N.eqb m n
  | None => false
  end && negb (Ascii.eqb (Base64.digit n) "=").

(** ** The items of [detailed_errors] *)

(** [de] is the item [error] as the schema reads it: a mapping whose
    [error_type] is a string and whose three numbers validate. *)
Definition reads_as (w : World) (error : pyval) (de : DetailedError) : Prop :=
  exists kw v_from v_to v_conf,
    error = VDict kw /\
    kw !! "error_type" = Some (VStr (error_type de)) /\
    kw !! "from_time" = Some v_from /\
    APIService.validate_float w v_from = Returns (from_time de) /\
    kw !! "to_time" = Some v_to /\
    APIService.validate_float w v_to = Returns (to_time de) /\
    kw !! "confidence" = Some v_conf /\
    APIService.validate_float w v_conf = Returns (confidence de).

(** The report path of a response, from the outcome of the report. *)
Definition opt_path (o : outcome string) : option string :=
  match o with
  | Returns p => Some p
  | Raises _ => None
  end.

(** ** A world to run the pipeline in *)

Module Demo.

Definition bytes (s : string) : list byte := list_byte_of_string s.

(** [/data/videos] holds the interviews [INT1] (three readable videos,
    one that cannot be opened, a text file and a directory named like a
    video) and [INT2] (nothing that can be analyzed); [/data/private] is
    a sibling of the storage root. *)
Definition tree : FS.node :=
  FS.Dir
    [("data",
      FS.Dir
        [("videos",
          FS.Dir
            [("INT1",
              FS.Dir
                [("a.mp4", FS.File (Some (bytes "A")));
                 ("b.MP4", FS.File None);
                 ("notes.txt", FS.File (Some []));
                 ("d.mov", FS.File (Some (bytes "D")));
                 ("e.mkv", FS.Dir []);
                 ("g.avi", FS.File (Some (bytes "G")))]);
             ("INT2",
              FS.Dir
                [("x.mp4", FS.File None);
                 ("y.wmv", FS.File (Some (bytes "Z")))]);
             ("stray.mp4", FS.File (Some []))]);
         ("private", FS.Dir [("s.mp4", FS.File (Some (bytes "S")))])])].

(** A response of the remote service: a score, and an error summary with
    a category for which it lists no detailed error. *)
Definition response (score : float) : pyval :=
  VDict
    {[ "status" := VStr "success";
       "data" :=
         VDict
           {[ "genuinity_score" := VFloat score;
              "total_duration" := VInt 12;
              "errors_summary" :=
                VDict {[ "looking_away" := VDict {[ "count" := VInt 2 ]} ]};
              "detailed_errors" := VList [] ]} ]}.

(** The service scores the three readable videos of [INT1] 8, 6 and 7 and
    is out of reach for the video of [INT2]. *)
Definition service (i : nat) (video_blob : string) : outcome pyval :=
  if String.eqb video_blob "QQ==" then Returns (response 8)
  else if String.eqb video_blob "RA==" then Returns (response 6)
  else if String.eqb video_blob "Rw==" then Returns (response 7)
  else Raises RequestException.

Definition world : World :=
  {| settings :=
       {| VIDEO_BASE_PATH := "/data/videos";
          NUM_RANDOM_VIDEOS := 2;
          EXTERNAL_API_URL := "http://127.0.0.1:8000/api/v1/analyze-video";
          EXTERNAL_API_TIMEOUT := 300;
          PDF_OUTPUT_PATH := "./reports";
          COMPANY_NAME := "Your Company Name";
          REPORT_LOGO_PATH := None |};
     fs := {| FS.tree := tree; FS.cwd := []; FS.name_max := 255; FS.path_max := 4096 |};
     random_raw := fun i => (7 * i + 3)%nat;
     random_redraws := fun i => (i mod 2)%nat;
     lower_unicode := fun s => s;
     sum_compensated := true;
     api_post := service;
     float_of_str := fun _ => None;
     fromisoformat := fun s => Some {| isoformat := s |};
     now := {| isoformat := "2024-01-01T00:00:00" |};
     report_stamp := "20240101_000000";
     pdf_build := fun _ _ _ _ _ => None |}.

Definition int1_files : list string :=
  ["/data/videos/INT1/a.mp4"; "/data/videos/INT1/b.MP4";
   "/data/videos/INT1/d.mov"; "/data/videos/INT1/g.avi"].

Definition int2_files : list string :=
  ["/data/videos/INT2/x.mp4"; "/data/videos/INT2/y.wmv"].

(** An interview id of 256 characters. *)
Definition long_id : string := string_of_list_ascii (repeat "a"%char 256).

End Demo.

(** The same world with another remote service. *)
Definition with_api_post (w : World) (post : nat -> string -> outcome pyval) : World :=
  {| settings := settings w;
     fs := fs w;
     random_raw := random_raw w;
     random_redraws := random_redraws w;
     lower_unicode := lower_unicode w;
     sum_compensated := sum_compensated w;
     api_post := post;
     float_of_str := float_of_str w;
     fromisoformat := fromisoformat w;
     now := now w;
     report_stamp := report_stamp w;
     pdf_build := pdf_build w |}.

(** * Properties of the pipeline *)

(** Arithmetic with quotients and remainders. *)
Ltac n_arith := zify; Z.to_euclidean_division_equations; lia.

(** ** What the loop does, item by item *)



(** The loop appends the successes, in order, to both accumulators and
    never raises. *)
Lemma analyze_each_outcomes w sel rs ds st :
  analyze_each w sel rs ds st =
  (Returns (rs ++ map fst (successes (item_outcomes w sel st)),
            ds ++ map snd (successes (item_outcomes w sel st))),
   after_items w sel st).
Proof.
  revert rs ds st. induction sel as [|v sel IH]; intros rs ds st; simpl.
  - by rewrite !app_nil_r.
  - unfold bind, try_ at 1.
    destruct (process_video w v st) as [[[s a]|e] st'] eqn:Hp; simpl.
    + rewrite IH, <- !app_assoc. reflexivity.
    + apply IH.
Qed.

Lemma is_empty_false {A} (l : list A) : l <> [] -> is_empty l = false.
Proof. destruct l; simpl; congruence. Qed.

(** The run of [analyze_videos] once candidates are located and sampled:
    it depends only on the successes among the items. *)
Lemma analyze_videos_sampled w id num st files sel st1 :
  get_video_files w id = Returns files ->
  files <> [] ->
  select_random_videos w files num st = (Returns sel, st1) ->
  let succ := successes (item_outcomes w sel st1) in
  let rs := map fst succ in
  let ds := map snd succ in
  let st2 := after_items w sel st1 in
  analyze_videos w id num st =
  if is_empty succ then (Returns all_failed_result, st2)
  else
    let avg := mean w (map summary_genuinity_score rs) in
    let report := PDFService.generate_report w id avg rs ds st2 in
    (Returns (success_result id rs avg (opt_str (fst report))), snd report).
Proof.
  intros Hfiles Hne Hsel succ rs ds st2.
  unfold analyze_videos, bind, lift. rewrite Hfiles.
  rewrite (is_empty_false files Hne), Hsel, analyze_each_outcomes. simpl.
  fold succ rs ds st2.
  destruct succ as [|x succ'] eqn:Hsucc; [reflexivity|].
  assert (Hrs : is_empty rs = false) by (subst rs; reflexivity).
  rewrite Hrs. simpl is_empty. cbv iota.
  unfold PyFloat.truediv.
  assert (Hlen : (Z.of_nat (length rs) =? 0) = false).
  { apply Z.eqb_neq. subst rs. simpl. lia. }
  rewrite Hlen. unfold try_, ret, mean. rewrite List.length_map.
  destruct (PDFService.generate_report _ _ _ _ _ _) as [o st3]. reflexivity.
Qed.

(** ** The sampler *)

Lemma insert_vacancy {A} (l : list A) (j : nat) (x y : A) :
  l !! j = Some x -> x :: <[j := y]> l ≡ₚ y :: l.
Proof.
  revert j. induction l as [|a l IH]; intros [|j] Hj; simpl in *; try done.
  - injection Hj as ->. apply perm_swap.
  - rewrite (perm_swap a x). rewrite (IH j Hj). apply perm_swap.
Qed.

(** One step of the selection loop: the item selected and the pool that
    remains make up the pool before. *)
Lemma pool_step {A} (pool : list A) (j : nat) (x y : A) :
  pool !! j = Some x ->
  last pool = Some y ->
  x :: take (length pool - 1) (<[j := y]> pool) ≡ₚ pool.
Proof.
  intros Hj Hlast.
  destruct pool as [|a pool' _] using rev_ind; [done|].
  rewrite last_snoc in Hlast. injection Hlast as ->.
  rewrite length_app. simpl.
  replace (length pool' + 1 - 1)%nat with (length pool') by lia.
  destruct (decide (j < length pool')%nat) as [Hlt|Hge].
  - rewrite lookup_app_l in Hj by done.
    rewrite insert_app_l by done.
    rewrite take_app_length' by (by rewrite length_insert).
    rewrite (insert_vacancy _ _ _ _ Hj).
    by rewrite Permutation_cons_append.
  - assert (j = length pool') as ->.
    { apply lookup_lt_Some in Hj. rewrite length_app in Hj. simpl in Hj. lia. }
    rewrite list_lookup_middle in Hj by done. injection Hj as ->.
    rewrite insert_app_r_alt by lia.
    rewrite Nat.sub_diag. simpl.
    rewrite take_app_length.
    by rewrite Permutation_cons_append.
Qed.

Lemma randbelow_run w n st :
  randbelow w n st = (Returns (random_raw w (draws st) mod n)%nat, st ++ [EvRandom n]).
Proof. reflexivity. Qed.

(** [random.sample] returns [k] items taken at distinct positions of the
    pool: with the items left over they are a rearrangement of it. *)
Lemma sample_pool_spec {A} w (pool : list A) (k : nat) st :
  (k <= length pool)%nat ->
  exists sel st',
    sample_pool w pool k st = (Returns sel, st') /\
    length sel = k /\
    exists rest, sel ++ rest ≡ₚ pool.
Proof.
  revert pool st. induction k as [|k IH]; intros pool st Hk.
  - exists [], st. split; [done|]. split; [done|]. by exists pool.
  - simpl. unfold bind at 1. rewrite randbelow_run.
    set (j := (random_raw w (draws st) mod length pool)%nat).
    assert (Hj : (j < length pool)%nat).
    { apply Nat.mod_upper_bound. lia. }
    destruct (lookup_lt_is_Some_2 pool j Hj) as [x Hx].
    assert (Hy : is_Some (last pool)).
    { destruct pool using rev_ind; [simpl in Hk; lia|]. rewrite last_snoc. eauto. }
    destruct Hy as [y Hy]. rewrite Hx, Hy.
    pose proof (pool_step pool j x y Hx Hy) as Hperm.
    set (pool' := take (length pool - 1) (<[j := y]> pool)) in *.
    assert (Hk' : (k <= length pool')%nat).
    { apply Permutation_length in Hperm. simpl in Hperm. lia. }
    destruct (IH pool' (st ++ [EvRandom (length pool)]) Hk')
      as (sel & st' & Hrun & Hlen & rest & Hrest).
    exists (x :: sel), st'. unfold bind, ret. rewrite Hrun.
    split; [done|]. split; [simpl; lia|].
    exists rest. simpl. by rewrite Hrest.
Qed.

(** *** The loop over indices *)

Lemma unselected_spec n selected j :
  In j (unselected n selected) <-> (j < n)%nat /\ ~ In j selected.
Proof.
  unfold unselected. rewrite List.filter_In, in_seq, negb_true_iff.
  split.
  - intros [Hj Hsel]. split; [lia|]. intros Hin.
    assert (H : existsb (Nat.eqb j) selected = true).
    { apply existsb_exists. exists j. split; [done | apply Nat.eqb_refl]. }
    congruence.
  - intros [Hj Hsel]. split; [lia|].
    destruct (existsb (Nat.eqb j) selected) eqn:H; [|done].
    apply existsb_exists in H as (x & Hx & Heq). apply Nat.eqb_eq in Heq. by subst x.
Qed.

(** While fewer than [n] indices are selected, one is free. *)
Lemma unselected_nonempty n selected :
  (length selected < n)%nat -> unselected n selected <> [].
Proof.
  intros Hlen Hnil.
  assert (Hincl : incl (seq 0 n) selected).
  { intros j Hj. apply in_seq in Hj.
    destruct (in_dec Nat.eq_dec j selected) as [Hin|Hout]; [done|].
    assert (Hfree : In j (unselected n selected)) by (apply unselected_spec; split; [lia|done]).
    rewrite Hnil in Hfree. destruct Hfree. }
  pose proof (NoDup_incl_length (seq_NoDup n 0) Hincl) as H.
  rewrite length_seq in H. lia.
Qed.

Lemma draw_unselected_run w n selected st :
  (length selected < n)%nat ->
  exists j redraws,
    draw_unselected w n selected st
    = (Returns j, st ++ replicate (redraws + 1) (EvRandom n)) /\
    (j < n)%nat /\ ~ In j selected /\
    (selected = [] -> redraws = O).
Proof.
  intros Hlen. unfold draw_unselected.
  set (redraws := match selected with [] => O | _ => random_redraws w (draws st) end).
  set (st1 := st ++ replicate redraws (EvRandom n)).
  set (free := unselected n selected).
  set (j := nth (random_raw w (draws st1) mod length free) free O).
  assert (Hfree : In j free).
  { apply nth_In. apply Nat.mod_upper_bound.
    pose proof (unselected_nonempty n selected Hlen) as Hne. fold free in Hne.
    destruct free; [done | simpl; lia]. }
  apply unselected_spec in Hfree as [Hj Hout].
  exists j, redraws. split; [|split; [done|split; [done|]]].
  - subst st1. by rewrite replicate_add, app_assoc.
  - intros ->. reflexivity.
Qed.

(** The loop selects [k] items at positions of the population that are
    distinct and were not selected before; every draw is below the size
    of the population. *)
Lemma sample_set_spec {A} w (population : list A) (k : nat) selected st :
  (length selected + k <= length population)%nat ->
  NoDup selected ->
  exists sel st' js redraws,
    sample_set w population selected k st = (Returns sel, st') /\
    Forall2 (fun j x => population !! j = Some x) js sel /\
    length js = k /\
    NoDup (js ++ selected) /\
    st' = st ++ replicate (k + redraws) (EvRandom (length population)) /\
    (k <= 1 -> selected = [] -> redraws = O)%nat.
Proof.
  revert selected st. induction k as [|k IH]; intros selected st Hlen Hnd.
  - exists [], st, [], O. repeat split; try done; try constructor.
    simpl. by rewrite app_nil_r.
  - cbn [sample_set]. unfold bind at 1.
    destruct (draw_unselected_run w (length population) selected st)
      as (j & r & Hdraw & Hj & Hout & Hnone); [lia|].
    rewrite Hdraw.
    destruct (lookup_lt_is_Some_2 population j Hj) as [x Hx]. rewrite Hx.
    destruct (IH (j :: selected)
                (st ++ replicate (r + 1) (EvRandom (length population))))
      as (sel & st' & js & r' & Hrun & Hat & Hjs & Hnd' & Hst & Hone).
    { simpl. lia. }
    { constructor; [by rewrite list_elem_of_In | done]. }
    exists (x :: sel), st', (j :: js), (r + r')%nat.
    unfold bind, ret. rewrite Hrun.
    split; [done|]. split; [by constructor|]. split; [simpl; lia|].
    split; [|split].
    + change ((j :: js) ++ selected) with (j :: js ++ selected).
      by rewrite Permutation_middle.
    + rewrite Hst, <- app_assoc, <- replicate_add. f_equal. f_equal. lia.
    + intros Hk Hsel. assert (k = O) as -> by lia.
      rewrite (Hnone Hsel). destruct js; [|done].
      cbn [sample_set] in Hrun. unfold ret in Hrun. injection Hrun as _ Hst'.
      rewrite Hst in Hst'. apply (f_equal length) in Hst'.
      rewrite !length_app, !length_replicate in Hst'. lia.
Qed.

(** Items at distinct positions of a list, with the items at the other
    positions, rearrange the list. *)
Lemma positions_rearrange {A} (l : list A) js sel :
  NoDup js ->
  Forall2 (fun j x => l !! j = Some x) js sel ->
  exists rest, sel ++ rest ≡ₚ l.
Proof.
  intros Hnd Hat.
  assert (Hsub : js ⊆+ seq 0 (length l)).
  { apply NoDup_submseteq; [done|]. intros j Hj. apply elem_of_seq.
    apply list_elem_of_lookup in Hj as [i Hi].
    destruct (Forall2_lookup_l _ _ _ _ _ Hat Hi) as (x & _ & Hx).
    apply lookup_lt_Some in Hx. lia. }
  apply submseteq_Permutation in Hsub as [ks Hks].
  assert (Hall : omap (fun j => l !! j) (seq 0 (length l)) = l).
  { clear. induction l as [|a l IH] using rev_ind; [done|].
    rewrite length_app. simpl. rewrite Nat.add_1_r, seq_S, omap_app. simpl.
    rewrite list_lookup_middle by done. simpl.
    f_equal. rewrite <- IH at 2. apply list_omap_ext.
    apply Forall2_same_length_lookup. split; [done|].
    intros i x y Hx Hy. assert (x = y) as <- by congruence.
    apply lookup_seq in Hx as [-> Hi]. simpl. by rewrite lookup_app_l. }
  assert (Hsel : omap (fun j => l !! j) js = sel).
  { clear -Hat. induction Hat as [|j x js sel Hx _ IH]; [done|].
    simpl. rewrite Hx. f_equal. exact IH. }
  exists (omap (fun j => l !! j) ks).
  by rewrite <- Hsel, <- omap_app, <- Hks, Hall.
Qed.

(** [random.sample] returns [k] items taken at distinct positions of the
    population, by either of its loops. *)
Lemma sample_spec {A} w (population : list A) (k : Z) st :
  0 <= k <= Z.of_nat (length population) ->
  exists sel st',
    sample w population k st = (Returns sel, st') /\
    length sel = Z.to_nat k /\
    exists rest, sel ++ rest ≡ₚ population.
Proof.
  intros Hk. unfold sample.
  assert (Hrange : (0 <=? k) && (k <=? Z.of_nat (length population)) = true).
  { apply andb_true_intro. split; apply Z.leb_le; lia. }
  rewrite Hrange.
  destruct (length population <=? setsize (Z.to_nat k))%nat.
  - apply sample_pool_spec. lia.
  - destruct (sample_set_spec w population (Z.to_nat k) [] st)
      as (sel & st' & js & r & Hrun & Hat & Hjs & Hnd & _); [simpl; lia | constructor |].
    exists sel, st'. split; [done|].
    split; [by rewrite <- (Forall2_length _ _ _ Hat)|].
    rewrite app_nil_r in Hnd. by apply (positions_rearrange population js).
Qed.

Lemma select_all w files num st :
  Z.of_nat (length files) <= requested w num ->
  select_random_videos w files num st = (Returns files, st).
Proof.
  intros H. unfold select_random_videos. fold (requested w num).
  apply Z.leb_le in H. by rewrite H.
Qed.

(** No candidates, no selection. *)
Lemma select_nil w num st sel st' :
  select_random_videos w [] num st = (Returns sel, st') -> sel = [].
Proof.
  unfold select_random_videos. fold (requested w num).
  change (Z.of_nat (length (@nil string))) with 0.
  destruct (0 <=? requested w num) eqn:Hn.
  - unfold ret. congruence.
  - unfold sample. rewrite Hn. cbn [andb]. unfold raise. congruence.
Qed.

(** C4. For every list of candidates and every target count [n >= 1]
    (the argument, or the configured default when there is none),
    [select_random_videos] returns [min(n, |candidates|)] items taken at
    distinct positions of the candidates (with the items left over they
    rearrange the candidate list), hence pairwise distinct when the
    candidates are, and all of them candidates; when [n >= |candidates|]
    it returns the candidate list itself, in its order, and draws
    nothing. *)
Theorem select_random_videos_spec w (files : list string) num st :
  1 <= requested w num ->
  exists sel st',
    select_random_videos w files num st = (Returns sel, st') /\
    length sel = Nat.min (Z.to_nat (requested w num)) (length files) /\
    (exists rest, sel ++ rest ≡ₚ files) /\
    (NoDup files -> NoDup sel) /\
    (forall x, x ∈ sel -> x ∈ files) /\
    (Z.of_nat (length files) <= requested w num -> sel = files /\ st' = st).
Proof.
  intros Hn.
  assert (Hgen : exists sel st',
    select_random_videos w files num st = (Returns sel, st') /\
    length sel = Nat.min (Z.to_nat (requested w num)) (length files) /\
    (exists rest, sel ++ rest ≡ₚ files) /\
    (Z.of_nat (length files) <= requested w num -> sel = files /\ st' = st)).
  { destruct (Z_le_gt_dec (Z.of_nat (length files)) (requested w num)) as [Hle|Hgt].
    - exists files, st. split; [by apply select_all|].
      split; [lia|]. split; [exists []; by rewrite app_nil_r | done].
    - unfold select_random_videos. fold (requested w num).
      assert (Hleb : (Z.of_nat (length files) <=? requested w num) = false)
        by (apply Z.leb_gt; lia).
      rewrite Hleb.
      destruct (sample_spec w files (requested w num) st)
        as (sel & st' & Hrun & Hlen & Hrest); [lia|].
      exists sel, st'. split; [done|]. split; [lia|]. split; [done|]. lia. }
  destruct Hgen as (sel & st' & Hrun & Hlen & (rest & Hrest) & Hall).
  exists sel, st'. split; [done|]. split; [done|].
  split; [by exists rest|]. split; [|split; [|done]].
  - intros Hnd. rewrite <- Hrest in Hnd. by apply NoDup_app in Hnd as [? _].
  - intros x Hx. rewrite <- Hrest. apply elem_of_app. by left.
Qed.

(** ** The pipeline *)




(** ** Binary64 arithmetic that does not round *)
















(** *** Sums *)

















(** The scores 8.0, 6.0, 7.0 add up without rounding. *)
Example scores_sum_exactly : sums_exactly [8; 6; 7]%float.
Proof.
  split; [repeat constructor|]. intros k Hk.
  destruct k as [|[|[|[|k]]]]; [| | | |simpl in Hk; lia].
  - by exists 0%float.
  - by exists 8%float.
  - by exists 14%float.
  - by exists 21%float.
Qed.


(** [round] on values whose fifth decimal decides: the nearest binary64
    to 2.00005 lies below it, the nearest to 0.12345 above it, and 0.125
    is a tie, resolved to the even digit. *)
Example round_below_half :
  PyFloat.round (20000.5 / 10000) 4 = (20000 / 10000)%float.
Proof. vm_compute. reflexivity. Qed.

Example round_above_half :
  PyFloat.round (12345 / 100000) 4 = (1235 / 10000)%float.
Proof. vm_compute. reflexivity. Qed.

Example round_tie_to_even :
  PyFloat.round 0.125 2 = (12 / 100)%float /\
  PyFloat.round 0.375 2 = (38 / 100)%float.
Proof. split; vm_compute; reflexivity. Qed.

Example round_keeps_sign_and_specials :
  PyFloat.round (- (1 / 1048576)) 4 = neg_zero /\
  PyFloat.round infinity 4 = infinity /\
  PyFloat.round nan 4 = nan.
Proof. repeat split; vm_compute; reflexivity. Qed.


(** C2. When no candidate is located, [analyze_videos] returns status
    ["error"] with the message that no videos were found for the
    interview, and the run does nothing else: no draw of the random
    source, no file opened, no call of the analysis client. *)
Theorem analyze_videos_no_candidates w id num st :
  get_video_files w id = Returns [] ->
  exists d,
    analyze_videos w id num st = (Returns d, st) /\
    d !! "status" = Some (VStr "error") /\
    d !! "message" = Some (VStr ("No videos found for interview_id: " +:+ id)).
Proof.
  intros Hfiles. exists (no_videos_result id).
  unfold analyze_videos, bind, lift. rewrite Hfiles. done.
Qed.

(** The two error messages differ, whatever the interview id. *)
Lemma error_messages_differ id :
  "Failed to analyze any videos" <> "No videos found for interview_id: " +:+ id.
Proof. discriminate. Qed.

(** C3. When the sampled list is not empty and the processing of every
    item raises, [analyze_videos] returns status ["error"] with the
    message ["Failed to analyze any videos"], which differs from the
    message of the case without candidates. *)
Theorem analyze_videos_all_failed w id num st files sel st1 :
  get_video_files w id = Returns files ->
  select_random_videos w files num st = (Returns sel, st1) ->
  sel <> [] ->
  Forall (fun o => is_raises o = true) (item_outcomes w sel st1) ->
  exists d st',
    analyze_videos w id num st = (Returns d, st') /\
    d !! "status" = Some (VStr "error") /\
    d !! "message" = Some (VStr "Failed to analyze any videos") /\
    forall id', d !! "message" <> no_videos_result id' !! "message".
Proof.
  intros Hfiles Hsel Hsome Hall.
  assert (Hne : files <> []).
  { intros ->. by apply select_nil in Hsel. }
  pose proof (analyze_videos_sampled w id num st files sel st1 Hfiles Hne Hsel) as Hrun.
  cbv zeta in Hrun.
  assert (Hnone : successes (item_outcomes w sel st1) = []).
  { clear Hrun. induction Hall as [|[a|e] os Ho _ IH]; simpl in *; [done| discriminate | done]. }
  rewrite Hnone in Hrun. simpl in Hrun.
  eexists _, _. split; [exact Hrun|]. split; [done|]. split; [done|].
  intros id'. change (all_failed_result !! "message")
    with (Some (VStr "Failed to analyze any videos")).
  change (no_videos_result id' !! "message")
    with (Some (VStr ("No videos found for interview_id: " +:+ id'))).
  intros H. apply (error_messages_differ id'). congruence.
Qed.



Lemma analyze_videos_no_candidates_witness :
  exists d,
    analyze_videos Demo.world "INT9" None [] = (Returns d, []) /\
    d !! "status" = Some (VStr "error") /\
    d !! "message" = Some (VStr "No videos found for interview_id: INT9").
Proof.
  apply (analyze_videos_no_candidates Demo.world "INT9" None []).
  vm_compute. reflexivity.
Defined.

Lemma analyze_videos_all_failed_witness :
  exists d st',
    analyze_videos Demo.world "INT2" None [] = (Returns d, st') /\
    d !! "status" = Some (VStr "error") /\
    d !! "message" = Some (VStr "Failed to analyze any videos").
Proof.
  destruct (analyze_videos_all_failed Demo.world "INT2" None []
              Demo.int2_files Demo.int2_files [])
    as (d & st' & Hrun & Hstatus & Hmsg & _).
  - vm_compute. reflexivity.
  - vm_compute. reflexivity.
  - discriminate.
  - vm_compute. repeat constructor.
  - exists d, st'. split; [exact Hrun|]. split; [exact Hstatus|]. exact Hmsg.
Defined.

Lemma select_random_videos_spec_witness :
  exists sel st',
    select_random_videos Demo.world Demo.int1_files None [] = (Returns sel, st') /\
    length sel = 2%nat /\
    NoDup sel.
Proof.
  destruct (select_random_videos_spec Demo.world Demo.int1_files None [])
    as (sel & st' & Hrun & Hlen & _ & Hdistinct & _).
  - vm_compute. discriminate.
  - exists sel, st'. split; [exact Hrun|]. split; [exact Hlen|].
    apply Hdistinct. apply (bool_decide_unpack _). vm_compute. reflexivity.
Defined.


(** ** Reporting is best effort *)

(** Locating, sampling and analysing do not depend on the renderer. *)
Lemma collect_video_files_with_pdf w build listing video_files :
  collect_video_files (with_pdf_build w build) listing video_files
  = collect_video_files w listing video_files.
Proof.
  revert video_files. induction listing as [|file rest IH]; intros acc; [done|].
  cbn [collect_video_files].
  change (fs (with_pdf_build w build)) with (fs w).
  change (str_lower (with_pdf_build w build)) with (str_lower w).
  destruct (FS.is_file (fs w) file) as [regular|e]; [|done].
  destruct (regular && _); apply IH.
Qed.

Lemma get_video_files_with_pdf w build id :
  get_video_files (with_pdf_build w build) id = get_video_files w id.
Proof.
  unfold get_video_files.
  change (fs (with_pdf_build w build)) with (fs w).
  change (video_folder (with_pdf_build w build) id) with (video_folder w id).
  destruct (FS.exists_ (fs w) (video_folder w id)) as [[|]|e]; try done.
  destruct (FS.iterdir (fs w) (video_folder w id)); [|done].
  apply collect_video_files_with_pdf.
Qed.

Lemma sample_pool_with_pdf {A} w build (pool : list A) k st :
  sample_pool (with_pdf_build w build) pool k st = sample_pool w pool k st.
Proof.
  revert pool st. induction k as [|k IH]; intros pool st; simpl; [done|].
  unfold bind at 1 3.
  change (randbelow (with_pdf_build w build) (length pool) st)
    with (randbelow w (length pool) st).
  destruct (randbelow w (length pool) st) as [[j|e] st']; [|done].
  destruct (pool !! j); [|done]. destruct (last pool); [|done].
  unfold bind. by rewrite IH.
Qed.

Lemma sample_set_with_pdf {A} w build (population : list A) selected k st :
  sample_set (with_pdf_build w build) population selected k st
  = sample_set w population selected k st.
Proof.
  revert selected st. induction k as [|k IH]; intros selected st; simpl; [done|].
  unfold bind at 1 3.
  change (draw_unselected (with_pdf_build w build) (length population) selected st)
    with (draw_unselected w (length population) selected st).
  destruct (draw_unselected w (length population) selected st) as [[j|e] st']; [|done].
  destruct (population !! j); [|done].
  unfold bind. by rewrite IH.
Qed.

Lemma select_random_videos_with_pdf w build files num st :
  select_random_videos (with_pdf_build w build) files num st
  = select_random_videos w files num st.
Proof.
  unfold select_random_videos, sample.
  change (settings (with_pdf_build w build)) with (settings w).
  repeat case_match; try done;
    first [apply sample_pool_with_pdf | apply sample_set_with_pdf].
Qed.

Lemma process_video_with_pdf w build v st :
  process_video (with_pdf_build w build) v st = process_video w v st.
Proof. reflexivity. Qed.

Lemma item_outcomes_with_pdf w build sel st :
  item_outcomes (with_pdf_build w build) sel st = item_outcomes w sel st.
Proof.
  revert st. induction sel as [|v sel IH]; intros st; simpl; [done|].
  rewrite process_video_with_pdf.
  destruct (process_video w v st) as [o st']. by rewrite IH.
Qed.

Lemma after_items_with_pdf w build sel st :
  after_items (with_pdf_build w build) sel st = after_items w sel st.
Proof.
  revert st. induction sel as [|v sel IH]; intros st; simpl; [done|].
  by rewrite process_video_with_pdf, IH.
Qed.

(** What [generate_report] does under a renderer that fails, and under
    one that does not. *)
Lemma generate_report_run w id avg rs ds st :
  let filepath :=
    PyPath.os_path_join (PDF_OUTPUT_PATH (settings w))
      (id +:+ "_" +:+ report_stamp w +:+ ".pdf") in
  PDFService.generate_report w id avg rs ds st =
  (match pdf_build w filepath id avg rs ds with
   | Some e => Raises e
   | None => Returns filepath
   end, st ++ [EvReport filepath]).
Proof.
  unfold PDFService.generate_report, bind, emit. simpl.
  by destruct (pdf_build w _ id avg rs ds).
Qed.

(** C6. In a run where at least one video is analysed, a fault raised by
    [generate_report] is caught: the result has [pdf_report_path = None]
    and status ["success"], and it is the result of the run where the
    report is made with [pdf_report_path] set to [None]; every other
    field is the same. *)
Theorem report_fault_is_tolerated w id num st files sel st1 build_ok build_bad :
  get_video_files w id = Returns files ->
  select_random_videos w files num st = (Returns sel, st1) ->
  successes (item_outcomes w sel st1) <> [] ->
  (forall p i a r d, build_ok p i a r d = None) ->
  (forall p i a r d, build_bad p i a r d <> None) ->
  exists d_ok d_bad st' path,
    analyze_videos (with_pdf_build w build_ok) id num st = (Returns d_ok, st') /\
    analyze_videos (with_pdf_build w build_bad) id num st = (Returns d_bad, st') /\
    d_ok !! "pdf_report_path" = Some (VStr path) /\
    d_bad !! "pdf_report_path" = Some VNone /\
    d_bad !! "status" = Some (VStr "success") /\
    d_bad = <["pdf_report_path" := VNone]> d_ok /\
    (forall key, key <> "pdf_report_path" -> d_bad !! key = d_ok !! key).
Proof.
  intros Hfiles Hsel Hsucc Hok Hbad.
  assert (Hne : files <> []).
  { intros ->. apply select_nil in Hsel. subst sel. by apply Hsucc. }
  assert (Hrun : forall build,
    analyze_videos (with_pdf_build w build) id num st =
    let succ := successes (item_outcomes w sel st1) in
    let rs := map fst succ in
    let avg := mean w (map summary_genuinity_score rs) in
    let report := PDFService.generate_report (with_pdf_build w build) id avg rs
                    (map snd succ) (after_items w sel st1) in
    (Returns (success_result id rs avg (opt_str (fst report))), snd report)).
  { intros build.
    pose proof (analyze_videos_sampled (with_pdf_build w build) id num st files sel st1)
      as H.
    rewrite get_video_files_with_pdf, select_random_videos_with_pdf in H.
    specialize (H Hfiles Hne Hsel). cbv zeta in H.
    rewrite item_outcomes_with_pdf, after_items_with_pdf in H.
    by rewrite (is_empty_false _ Hsucc) in H. }
  pose proof (Hrun build_ok) as Hrun_ok. pose proof (Hrun build_bad) as Hrun_bad.
  cbv zeta in Hrun_ok, Hrun_bad.
  rewrite generate_report_run in Hrun_ok, Hrun_bad. cbv zeta in Hrun_ok, Hrun_bad.
  simpl pdf_build in Hrun_ok, Hrun_bad. rewrite Hok in Hrun_ok.
  match type of Hrun_bad with
  | context [build_bad ?p ?i ?a ?r ?d] =>
      destruct (build_bad p i a r d) as [e|] eqn:He; [|by apply Hbad in He]
  end.
  simpl in Hrun_ok, Hrun_bad.
  eexists _, _, _, _. split; [exact Hrun_ok|]. split; [exact Hrun_bad|].
  split; [reflexivity|]. split; [reflexivity|]. split; [reflexivity|].
  split; [reflexivity|].
  intros key Hkey.
  match goal with
  | |- success_result ?i ?r ?a VNone !! key = success_result ?i ?r ?a ?p !! key =>
      change (success_result i r a VNone)
        with (<["pdf_report_path" := VNone]> (success_result i r a p))
  end.
  by rewrite lookup_insert_ne.
Qed.

Lemma report_fault_is_tolerated_witness :
  exists d_ok d_bad st',
    analyze_videos (with_pdf_build Demo.world (fun _ _ _ _ _ => None))
      "INT1" None [] = (Returns d_ok, st') /\
    analyze_videos (with_pdf_build Demo.world (fun _ _ _ _ _ => Some RenderError))
      "INT1" None [] = (Returns d_bad, st') /\
    d_bad !! "pdf_report_path" = Some VNone /\
    d_bad !! "status" = Some (VStr "success").
Proof.
  destruct (report_fault_is_tolerated Demo.world "INT1" None []
              Demo.int1_files
              ["/data/videos/INT1/g.avi"; "/data/videos/INT1/b.MP4"]
              [EvRandom 4; EvRandom 3]
              (fun _ _ _ _ _ => None) (fun _ _ _ _ _ => Some RenderError))
    as (d_ok & d_bad & st' & path & Hok & Hbad & _ & Hpath & Hstatus & _).
  - vm_compute. reflexivity.
  - vm_compute. reflexivity.
  - vm_compute. discriminate.
  - reflexivity.
  - discriminate.
  - exists d_ok, d_bad, st'. split; [exact Hok|]. split; [exact Hbad|].
    split; [exact Hpath|]. exact Hstatus.
Defined.

(** ** The results the pipeline can return *)

(** The faults of the file system. *)
Lemma walk_raises fs tr segs e :
  FS.walk fs tr segs = Raises e ->
  e = FileNotFoundError \/ e = NotADirectoryError \/ e = OSError.
Proof.
  revert tr. induction segs as [|seg segs IH]; intros tr; simpl; [done|].
  destruct (FS.enter fs tr seg) as [tr'|e'] eqn:He; [apply IH|].
  intros H. injection H as <-. unfold FS.enter in He.
  destruct (FS.here _ tr); [injection He as <-; tauto|].
  destruct (String.eqb seg ".."); [done|].
  destruct (FS.lookup_entry seg _); [done|].
  destruct (_ <? _)%nat; injection He as <-; tauto.
Qed.

Lemma stat_text_raises fs text p e :
  FS.stat_text fs text p = Raises e ->
  e = FileNotFoundError \/ e = NotADirectoryError \/ e = OSError.
Proof.
  unfold FS.stat_text, FS.resolve.
  destruct (_ <=? _)%nat; [intros H; injection H as <-; tauto|].
  destruct (PyPath.root p).
  - destruct (FS.walk fs [] (FS.cwd fs)) as [tr|e'] eqn:Hc.
    + destruct (FS.walk fs tr _) eqn:Hw; [done|].
      intros H. injection H as <-. by apply walk_raises in Hw.
    + intros H. injection H as <-. by apply walk_raises in Hc.
  - destruct (FS.walk fs [] _) eqn:Hw; [done|].
    intros H. injection H as <-. by apply walk_raises in Hw.
  - destruct (FS.walk fs [] _) eqn:Hw; [done|].
    intros H. injection H as <-. by apply walk_raises in Hw.
Qed.

Lemma is_file_raises fs p e : FS.is_file fs p = Raises e -> e = OSError.
Proof.
  unfold FS.is_file, FS.stat.
  destruct (FS.stat_text fs _ p) as [[c|es]|e'] eqn:Hs; [done|done|].
  apply stat_text_raises in Hs as [-> | [-> | ->]]; simpl; congruence.
Qed.

Lemma collect_video_files_raises w listing video_files e :
  collect_video_files w listing video_files = Raises e -> e = OSError.
Proof.
  revert video_files. induction listing as [|file rest IH]; intros acc; [done|].
  cbn [collect_video_files].
  destruct (FS.is_file (fs w) file) as [regular|e'] eqn:Hf.
  - destruct (regular && _); apply IH.
  - intros H. injection H as <-. by apply is_file_raises in Hf.
Qed.

Lemma get_video_files_raises w id e :
  get_video_files w id = Raises e -> e = NotADirectoryError \/ e = OSError.
Proof.
  unfold get_video_files, FS.exists_, FS.iterdir, FS.stat.
  destruct (FS.stat_text (fs w) _ (video_folder w id)) as [[c|es]|e'] eqn:Hs.
  - intros H. injection H as <-. by left.
  - intros H. apply collect_video_files_raises in H. by right.
  - apply stat_text_raises in Hs as [-> | [-> | ->]]; simpl; try done.
    intros H. injection H as <-. by right.
Qed.

Lemma sample_pool_raises {A} w (pool : list A) k st e st' :
  sample_pool w pool k st = (Raises e, st') -> e = ValueError.
Proof.
  revert pool st e st'. induction k as [|k IH]; intros pool st e st'; simpl.
  - unfold ret. congruence.
  - unfold bind at 1. rewrite randbelow_run.
    destruct (pool !! _); [|unfold raise; congruence].
    destruct (last pool) as [y|]; [|unfold raise; congruence].
    unfold bind, ret.
    destruct (sample_pool w _ k _) as [[sel|e'] st2] eqn:Hrun; [congruence|].
    intros H. injection H as <- _. by apply IH in Hrun.
Qed.

Lemma sample_set_raises {A} w (population : list A) selected k st e st' :
  sample_set w population selected k st = (Raises e, st') -> e = ValueError.
Proof.
  revert selected st e st'. induction k as [|k IH]; intros selected st e st'; simpl.
  - unfold ret. congruence.
  - unfold bind at 1, draw_unselected.
    destruct (population !! _); [|unfold raise; congruence].
    unfold bind, ret.
    destruct (sample_set w _ _ k _) as [[sel|e'] st2] eqn:Hrun; [congruence|].
    intros H. injection H as <- _. by apply IH in Hrun.
Qed.

Lemma select_random_videos_raises w files num st e st' :
  select_random_videos w files num st = (Raises e, st') -> e = ValueError.
Proof.
  unfold select_random_videos, sample, ret, raise.
  repeat case_match; try congruence;
    first [apply sample_pool_raises | apply sample_set_raises].
Qed.

(** Every run of [analyze_videos] ends in one of five ways. *)
Lemma analyze_videos_cases w id num st :
  match analyze_videos w id num st with
  | (Returns d, _) =>
      d = no_videos_result id \/
      d = all_failed_result \/
      exists rs avg pdf, rs <> [] /\ d = success_result id rs avg pdf
  | (Raises e, _) => e = NotADirectoryError \/ e = OSError \/ e = ValueError
  end.
Proof.
  destruct (get_video_files w id) as [files|e] eqn:Hfiles.
  - destruct files as [|f files'] eqn:Hf.
    + unfold analyze_videos, bind, lift. rewrite Hfiles. simpl. by left.
    + destruct (select_random_videos w (f :: files') num st) as [[sel|e] st1] eqn:Hsel.
      * rewrite (analyze_videos_sampled w id num st _ sel st1 Hfiles ltac:(done) Hsel).
        cbv zeta.
        destruct (successes (item_outcomes w sel st1)) as [|x succ] eqn:Hsucc; simpl.
        -- right. by left.
        -- right. right. eexists _, _, _. split; [|reflexivity]. done.
      * unfold analyze_videos, bind, lift. rewrite Hfiles. simpl. rewrite Hsel.
        right. right. by apply select_random_videos_raises in Hsel.
  - unfold analyze_videos, bind, lift. rewrite Hfiles.
    apply get_video_files_raises in Hfiles as [-> | ->]; tauto.
Qed.

(** C10. A result of [analyze_videos] with status ["success"] has
    [videos_analyzed] equal to the length of [individual_scores], and
    that is at least 1; a result with status ["error"] has only the keys
    [status] and [message], so no [videos_analyzed],
    [average_genuinity_score] or [individual_scores]; and no run ends in
    [ZeroDivisionError]. *)
Theorem success_count_is_positive w id num st o st' :
  analyze_videos w id num st = (o, st') ->
  o <> Raises ZeroDivisionError /\
  forall d, o = Returns d ->
    (d !! "status" = Some (VStr "success") ->
     exists l,
       d !! "individual_scores" = Some (VList l) /\
       d !! "videos_analyzed" = Some (VInt (Z.of_nat (length l))) /\
       (1 <= length l)%nat) /\
    (d !! "status" = Some (VStr "error") ->
     dom d = {[ "status"; "message" ]} /\
     d !! "videos_analyzed" = None /\
     d !! "average_genuinity_score" = None /\
     d !! "individual_scores" = None).
Proof.
  intros Hrun. pose proof (analyze_videos_cases w id num st) as Hcases.
  rewrite Hrun in Hcases. split.
  - destruct o as [d|e]; [done|]. destruct Hcases as [-> | [-> | ->]]; done.
  - intros d ->. destruct Hcases as [-> | [-> | (rs & avg & pdf & Hrs & ->)]].
    + split; [discriminate|]. intros _.
      split; [unfold no_videos_result; set_solver | done].
    + split; [discriminate|]. intros _.
      split; [unfold all_failed_result; set_solver | done].
    + split; [|discriminate]. intros _.
      exists (map (fun r => VDict (summary_dict r)) rs).
      split; [reflexivity|]. rewrite List.length_map. split; [reflexivity|].
      destruct rs; [done | simpl; lia].
Qed.

Lemma success_count_is_positive_witness :
  exists d st' l,
    analyze_videos Demo.world "INT1" (Some 4) [] = (Returns d, st') /\
    d !! "status" = Some (VStr "success") /\
    d !! "individual_scores" = Some (VList l) /\
    d !! "videos_analyzed" = Some (VInt (Z.of_nat (length l))) /\
    (1 <= length l)%nat.
Proof.
  assert (Hstatus :
    match fst (analyze_videos Demo.world "INT1" (Some 4) []) with
    | Returns d => d !! "status"
    | Raises _ => None
    end = Some (VStr "success")) by (vm_compute; reflexivity).
  destruct (analyze_videos Demo.world "INT1" (Some 4) []) as [[d|e] st'] eqn:Hrun;
    [|discriminate Hstatus].
  destruct (success_count_is_positive Demo.world "INT1" (Some 4) [] _ _ Hrun)
    as [_ Hd].
  destruct (Hd d eq_refl) as [Hsuccess _].
  destruct (Hsuccess Hstatus) as (l & Hl & Hn & Hpos).
  exists d, st', l. split; [reflexivity|]. split; [exact Hstatus|].
  split; [exact Hl|]. split; [exact Hn | exact Hpos].
Defined.

(** ** The locator *)

(** *** File names and extensions *)

Lemma rfind_bounds c s : -1 <= Str.rfind c s < Str.len s.
Proof.
  unfold Str.len. induction s as [|a s IH]; simpl; [lia|].
  destruct (0 <=? Str.rfind c s) eqn:E; [apply Z.leb_le in E; lia|].
  destruct (Ascii.eqb a c); lia.
Qed.

Lemma rfind_absent c s : ~ In c (chars s) -> Str.rfind c s = -1.
Proof.
  induction s as [|a s IH]; simpl; [done|]. intros Hin.
  rewrite IH by tauto. simpl.
  destruct (Ascii.eqb_spec a c) as [->|]; [tauto | done].
Qed.

Lemma rfind_app c s1 s2 :
  ~ In c (chars s2) -> Str.rfind c (s1 +:+ String c s2) = Str.len s1.
Proof.
  intros Hin. unfold Str.len. induction s1 as [|a s1 IH]; simpl.
  - rewrite (rfind_absent c s2 Hin). simpl. by rewrite Ascii.eqb_refl.
  - rewrite IH. destruct (0 <=? Z.of_nat (String.length s1)) eqn:E; [lia|].
    apply Z.leb_gt in E. lia.
Qed.

Lemma rfind_split c s :
  0 <= Str.rfind c s ->
  exists s1 s2,
    s = s1 +:+ String c s2 /\ Str.len s1 = Str.rfind c s /\ ~ In c (chars s2).
Proof.
  unfold Str.len. induction s as [|a s IH]; simpl; [lia|].
  destruct (0 <=? Str.rfind c s) eqn:E.
  - intros _. apply Z.leb_le in E.
    destruct (IH E) as (s1 & s2 & -> & Hlen & Hin).
    exists (String a s1), s2. simpl. split; [done|]. split; [lia | done].
  - apply Z.leb_gt in E.
    destruct (Ascii.eqb_spec a c) as [->|]; [|lia]. intros _.
    exists "", s. split; [done|]. split; [done|].
    intros Hin. clear IH.
    assert (H : forall s, In c (chars s) -> 0 <= Str.rfind c s).
    { clear. induction s as [|b s IH]; simpl; [done|].
      intros [->|Hin].
      - destruct (0 <=? Str.rfind c s) eqn:E.
        + apply Z.leb_le in E. lia.
        + by rewrite Ascii.eqb_refl.
      - specialize (IH Hin). apply Z.leb_le in IH as E. rewrite E. lia. }
    specialize (H s Hin). lia.
Qed.

Lemma drop_app s1 s2 : Str.drop (String.length s1) (s1 +:+ s2) = s2.
Proof. induction s1; simpl; [by destruct s2 | done]. Qed.

Lemma length_append s1 s2 :
  String.length (s1 +:+ s2) = (String.length s1 + String.length s2)%nat.
Proof. induction s1 as [|a s1 IH]; simpl; [done | by rewrite IH]. Qed.

Lemma suffix_child p name : PyPath.suffix (PyPath.child p name) = suffix_of name.
Proof.
  unfold PyPath.suffix, PyPath.name, PyPath.child, suffix_of. simpl.
  by rewrite List.last_last.
Qed.

Lemma suffix_of_extension name ext :
  has_extension name ext -> suffix_of name = "." +:+ ext.
Proof.
  intros (stem & -> & Hstem & Hext & Hdot). unfold suffix_of.
  change (stem +:+ "." +:+ ext) with (stem +:+ String "." ext).
  rewrite (rfind_app _ stem ext Hdot). unfold Str.len.
  rewrite length_append. simpl.
  assert (H1 : (0 < String.length stem)%nat) by (destruct stem; simpl; [done|lia]).
  assert (H2 : (0 < String.length ext)%nat) by (destruct ext; simpl; [done|lia]).
  assert (Hc : (0 <? Z.of_nat (String.length stem))
               && (Z.of_nat (String.length stem)
                   <? Z.of_nat (String.length stem + S (String.length ext)) - 1) = true).
  { apply andb_true_intro. split; apply Z.ltb_lt; lia. }
  rewrite Hc, Nat2Z.id. apply drop_app.
Qed.

Lemma suffix_of_nonempty name :
  suffix_of name <> "" ->
  exists ext, has_extension name ext /\ suffix_of name = "." +:+ ext.
Proof.
  unfold suffix_of.
  destruct ((0 <? Str.rfind "." name) && (Str.rfind "." name <? Str.len name - 1))
    eqn:Hc; [|done].
  intros _. apply andb_prop in Hc as [H1 H2].
  apply Z.ltb_lt in H1. apply Z.ltb_lt in H2.
  destruct (rfind_split "." name) as (stem & ext & Hname & Hlen & Hdot); [lia|].
  exists ext. rewrite <- Hlen. unfold Str.len. rewrite Nat2Z.id.
  rewrite Hname at 2. rewrite drop_app. split; [|done].
  exists stem. split; [done|].
  rewrite <- Hlen in H1, H2.
  assert (Hl : Str.len name = Str.len stem + 1 + Str.len ext).
  { rewrite Hname at 1. unfold Str.len. rewrite length_append. simpl. lia. }
  rewrite Hl in H2. unfold Str.len in H1, H2.
  split; [intros ->; simpl in H1; lia|].
  split; [intros ->; simpl in H2; lia | done].
Qed.

Lemma str_in_In x xs : str_in x xs = true <-> In x xs.
Proof.
  unfold str_in. rewrite existsb_exists. split.
  - intros (y & Hy & Heq). apply String.eqb_eq in Heq. by subst.
  - intros Hx. exists x. split; [done|]. apply String.eqb_refl.
Qed.

Lemma dotted_formats ext :
  In ("." +:+ ext) video_extensions <-> In ext video_formats.
Proof.
  unfold video_extensions, video_formats.
  change ("." +:+ ext) with (String "." ext). simpl. split.
  - intros H. repeat (destruct H as [H|H]; [injection H as <-; tauto|]). done.
  - intros H. repeat (destruct H as [<-|H]; [tauto|]). done.
Qed.

(** Lowering a character gives the same letter, and the two cases of a
    letter are lowered to the same character. *)
Lemma same_letter_lower a : same_letter a (Str.lower_ascii a).
Proof.
  destruct a as [[] [] [] [] [] [] [] []];
    first [ left; reflexivity
          | right; left; cbv; repeat (first [left; reflexivity | right]) ].
Qed.

Lemma same_letter_lower_eq a b :
  same_letter a b -> Str.lower_ascii a = Str.lower_ascii b.
Proof.
  intros [->|[H|H]]; [done| |];
    vm_compute in H;
    repeat (destruct H as [H|H]; [injection H as <- <-; reflexivity|]);
    destruct H.
Qed.

Lemma lower_equal_ignoring_case s : equal_ignoring_case s (Str.lower s).
Proof.
  unfold equal_ignoring_case, chars.
  induction s as [|c s IH]; simpl; constructor; [apply same_letter_lower | done].
Qed.

Lemma equal_ignoring_case_lower s t :
  equal_ignoring_case s t -> Str.lower s = Str.lower t.
Proof.
  unfold equal_ignoring_case, chars. revert t.
  induction s as [|c s IH]; intros [|d t] H; simpl in H; inversion H; subst; [done|].
  simpl. f_equal; [by apply same_letter_lower_eq | by apply IH].
Qed.

Lemma formats_are_lower format :
  In format video_formats -> Str.lower format = format.
Proof.
  intros H. unfold video_formats in H. simpl in H.
  repeat (destruct H as [<-|H]; [reflexivity|]). destruct H.
Qed.

(** An ASCII extension is lowered to a format exactly when it is that
    format without regard to case. *)
Lemma lower_in_formats ext :
  In (Str.lower ext) video_formats <->
  exists format, In format video_formats /\ equal_ignoring_case ext format.
Proof.
  split.
  - intros H. exists (Str.lower ext). split; [done | apply lower_equal_ignoring_case].
  - intros (format & Hin & Heq).
    by rewrite (equal_ignoring_case_lower _ _ Heq), (formats_are_lower _ Hin).
Qed.

Lemma str_lower_suffix w ext :
  str_lower w ("." +:+ ext) =
  if Str.is_ascii ext then "." +:+ Str.lower ext else lower_unicode w ("." +:+ ext).
Proof.
  unfold str_lower. change ("." +:+ ext) with (String "." ext).
  cbn [Str.is_ascii]. change (nat_of_ascii "." <? 128)%nat with true. cbn [andb].
  by destruct (Str.is_ascii ext).
Qed.

(** The test of [get_video_files] on a name is the allow-list of the
    specification, compared without regard to case. *)
Lemma video_test_spec w name :
  str_in (str_lower w (suffix_of name)) video_extensions = true <-> is_video_name w name.
Proof.
  rewrite str_in_In. split.
  - intros Hin.
    destruct (suffix_of_nonempty name) as (ext & Hext & Hsuf).
    { intros E. rewrite E in Hin. simpl in Hin.
      repeat (destruct Hin as [Hin|Hin]; [discriminate|]). done. }
    exists ext. split; [done|].
    rewrite Hsuf, str_lower_suffix in Hin.
    destruct (Str.is_ascii ext); [|exact Hin].
    by apply lower_in_formats, dotted_formats.
  - intros (ext & Hext & Hin).
    rewrite (suffix_of_extension name ext Hext), str_lower_suffix.
    destruct (Str.is_ascii ext); [|exact Hin].
    by apply dotted_formats, lower_in_formats.
Qed.

(** *** Path resolution *)

Lemma walk_app fs tr a b :
  FS.walk fs tr (a ++ b) =
  match FS.walk fs tr a with
  | Returns tr' => FS.walk fs tr' b
  | Raises e => Raises e
  end.
Proof.
  revert tr. induction a as [|seg a IH]; intros tr; simpl; [done|].
  destruct (FS.enter fs tr seg); [apply IH | done].
Qed.

Lemma resolve_child fs p n tr :
  FS.resolve fs p = Returns tr ->
  FS.resolve fs (PyPath.child p n) = FS.enter fs tr n.
Proof.
  unfold FS.resolve, PyPath.child. simpl. intros H.
  assert (Hlast : forall tr0, FS.walk fs tr0 (PyPath.parts p) = Returns tr ->
            FS.walk fs tr0 (PyPath.parts p ++ [n]) = FS.enter fs tr n).
  { intros tr0 Hw. rewrite walk_app, Hw. simpl. by destruct (FS.enter fs tr n). }
  destruct (PyPath.root p).
  - destruct (FS.walk fs [] (FS.cwd fs)); [by apply Hlast | done].
  - by apply Hlast.
  - by apply Hlast.
Qed.

(** What [stat] returns is what is at the end of the path, and the path
    is within the limit. *)
Lemma stat_returns fs p x :
  FS.stat fs p = Returns x ->
  (String.length (PyPath.to_str p) < FS.path_max fs)%nat /\
  exists tr, FS.resolve fs p = Returns tr /\ FS.here (FS.tree fs) tr = x.
Proof.
  unfold FS.stat, FS.stat_text.
  destruct (_ <=? _)%nat eqn:Hlen; [done|]. apply Nat.leb_gt in Hlen.
  destruct (FS.resolve fs p) as [tr|e]; [|done].
  intros H. injection H as <-. split; [done|]. by exists tr.
Qed.

Lemma stat_child fs p n es :
  FS.stat fs p = Returns (FS.Dir es) ->
  n <> ".." ->
  (String.length (PyPath.to_str (PyPath.child p n)) < FS.path_max fs)%nat ->
  FS.stat fs (PyPath.child p n) =
  match FS.lookup_entry n es with
  | Some x => Returns x
  | None =>
      if (FS.name_max fs <? String.length n)%nat then Raises OSError
      else Raises FileNotFoundError
  end.
Proof.
  intros Hp Hn Hlen. apply stat_returns in Hp as (_ & tr & Hr & Hhere).
  unfold FS.stat, FS.stat_text.
  apply Nat.leb_gt in Hlen. rewrite Hlen.
  rewrite (resolve_child fs p n tr Hr). unfold FS.enter. rewrite Hhere.
  apply String.eqb_neq in Hn. rewrite Hn.
  destruct (FS.lookup_entry n es); [done|]. by destruct (_ <? _)%nat.
Qed.

(** A child that [stat] finds is the entry of its name. *)
Lemma stat_child_returns fs p n es x :
  FS.stat fs p = Returns (FS.Dir es) ->
  n <> ".." ->
  FS.stat fs (PyPath.child p n) = Returns x ->
  FS.lookup_entry n es = Some x /\
  (String.length (PyPath.to_str (PyPath.child p n)) < FS.path_max fs)%nat.
Proof.
  intros Hp Hn Hc. apply stat_returns in Hc as Hc'. destruct Hc' as (Hlen & _).
  rewrite (stat_child fs p n es Hp Hn Hlen) in Hc. split; [|done].
  destruct (FS.lookup_entry n es); [congruence|]. by destruct (_ <? _)%nat.
Qed.

Lemma video_name_not_dotdot w n : is_video_name w n -> n <> "..".
Proof.
  intros (ext & (stem & Hn & Hstem & Hext & _) & _) ->.
  apply (f_equal String.length) in Hn. rewrite !length_append in Hn. simpl in Hn.
  destruct stem; [done|]. destruct ext; [done|]. simpl in Hn. lia.
Qed.




(** *** The listing *)

Lemma collect_video_files_returns w listing video_files l :
  collect_video_files w listing video_files = Returns l ->
  l = video_files ++ map PyPath.to_str (List.filter (is_video_file w) listing).
Proof.
  revert video_files. induction listing as [|file rest IH]; intros acc.
  - simpl. intros H. injection H as <-. by rewrite app_nil_r.
  - cbn [collect_video_files List.filter]. unfold is_video_file at 1.
    destruct (FS.is_file (fs w) file) as [regular|e]; [|done].
    destruct (regular && _).
    + intros H. apply IH in H. by rewrite H, <- app_assoc.
    + apply IH.
Qed.


Lemma filter_listing {A B} (f : B -> bool) (g : A -> B) (l : list A) :
  List.filter f (map g l) = map g (List.filter (fun x => f (g x)) l).
Proof.
  induction l as [|x l IH]; [done|]. cbn [map List.filter].
  destruct (f (g x)); cbn [map]; by rewrite IH.
Qed.

(** The candidates of a storage location that is a directory, when
    [get_video_files] returns. *)
Lemma get_video_files_returns w id es files :
  FS.stat (fs w) (video_folder w id) = Returns (FS.Dir es) ->
  get_video_files w id = Returns files ->
  files =
  map (fun n => PyPath.to_str (PyPath.child (video_folder w id) n))
    (List.filter (fun n => is_video_file w (PyPath.child (video_folder w id) n))
       (map fst es)).
Proof.
  intros Hstat. unfold get_video_files, FS.exists_, FS.iterdir. rewrite Hstat.
  intros H. apply collect_video_files_returns in H. cbn [app] in H.
  rewrite H, !filter_listing, !List.map_map. reflexivity.
Qed.


(** An entry that passes the test of the locator is a regular file with a
    video name, at a path within the limit. *)
Lemma is_video_file_child w id es n :
  FS.stat (fs w) (video_folder w id) = Returns (FS.Dir es) ->
  is_video_file w (PyPath.child (video_folder w id) n) = true ->
  is_video_name w n /\
  (String.length (PyPath.to_str (PyPath.child (video_folder w id) n))
   < FS.path_max (fs w))%nat /\
  exists content, FS.lookup_entry n es = Some (FS.File content).
Proof.
  intros Hstat Htest. unfold is_video_file in Htest.
  destruct (FS.is_file (fs w) _) as [regular|e] eqn:Hfile; [|done].
  apply andb_prop in Htest as [-> Hext].
  rewrite suffix_child in Hext. apply video_test_spec in Hext. split; [done|].
  unfold FS.is_file in Hfile.
  destruct (FS.stat (fs w) (PyPath.child (video_folder w id) n))
    as [[content|es']|e] eqn:Hc; [|done|by destruct (FS.ignore_error e)].
  destruct (stat_child_returns _ _ n es _ Hstat (video_name_not_dotdot w n Hext) Hc)
    as [Hlook Hlen].
  split; [done|]. by exists content.
Qed.





(** The cases on the demonstration tree: a directory, a location where
    nothing is, a location that is a regular file, and an id too long
    for a name. *)
Example get_video_files_int1 :
  get_video_files Demo.world "INT1" = Returns Demo.int1_files.
Proof. vm_compute. reflexivity. Qed.

Example get_video_files_absent :
  get_video_files Demo.world "INT9" = Returns [].
Proof. vm_compute. reflexivity. Qed.

Example get_video_files_not_a_directory :
  get_video_files Demo.world "stray.mp4" = Raises NotADirectoryError.
Proof. vm_compute. reflexivity. Qed.

Example get_video_files_long_id :
  get_video_files Demo.world Demo.long_id = Raises OSError.
Proof. vm_compute. reflexivity. Qed.

(** Nothing is at the storage location of the long id, and the locator
    raises all the same. *)
Example nothing_at_long_id :
  nothing_at Demo.world Demo.long_id /\
  get_video_files Demo.world Demo.long_id <> Returns [].
Proof.
  split.
  - intros tr.
    assert (Hres : FS.resolve (fs Demo.world) (video_folder Demo.world Demo.long_id)
                   = Raises OSError) by (vm_compute; reflexivity).
    rewrite Hres. discriminate.
  - rewrite get_video_files_long_id. discriminate.
Qed.


(** *** Interview ids that leave the storage root *)

Lemma enter_descends t tr seg tr' :
  seg <> ".." ->
  FS.enter t tr seg = Returns tr' ->
  FS.location tr' = FS.location tr ++ [seg].
Proof.
  unfold FS.enter. intros Hseg. apply String.eqb_neq in Hseg. rewrite Hseg.
  destruct (FS.here (FS.tree t) tr) as [c|es]; [done|].
  destruct (FS.lookup_entry seg es); [|by destruct (_ <? _)%nat].
  intros H. injection H as <-. reflexivity.
Qed.

Lemma walk_descends t tr segs tr' :
  ~ In ".." segs ->
  FS.walk t tr segs = Returns tr' ->
  FS.location tr' = FS.location tr ++ segs.
Proof.
  revert tr. induction segs as [|seg segs IH]; intros tr Hno; simpl.
  - intros H. injection H as <-. by rewrite app_nil_r.
  - destruct (FS.enter t tr seg) as [tr1|e] eqn:He; [|done].
    intros Hw. simpl in Hno.
    rewrite (IH tr1) by tauto.
    rewrite (enter_descends t tr seg tr1) by tauto.
    by rewrite <- app_assoc.
Qed.

(** C7, as the code has it.  [get_video_files] joins the id to the
    storage root as it is given; an id that is relative and has no [".."]
    segment makes it read a directory at or below the storage root,
    namely the one reached from the root by the segments of the id. *)
Theorem plain_ids_are_confined w id :
  PyPath.root (PyPath.parse id) = PyPath.Relative ->
  ~ has_traversal id ->
  video_folder w id =
    {| PyPath.root := PyPath.root (storage_root w);
       PyPath.parts := PyPath.parts (storage_root w) ++ PyPath.parts (PyPath.parse id) |} /\
  confined w id /\
  forall tr,
    FS.resolve (fs w) (video_folder w id) = Returns tr ->
    exists tr0,
      FS.resolve (fs w) (storage_root w) = Returns tr0 /\
      FS.location tr = FS.location tr0 ++ PyPath.parts (PyPath.parse id).
Proof.
  intros Hrel Hno.
  assert (Hjoin : video_folder w id =
    {| PyPath.root := PyPath.root (storage_root w);
       PyPath.parts := PyPath.parts (storage_root w) ++ PyPath.parts (PyPath.parse id) |}).
  { unfold video_folder, PyPath.joinpath. by rewrite Hrel. }
  assert (Hloc : forall tr,
    FS.resolve (fs w) (video_folder w id) = Returns tr ->
    exists tr0,
      FS.resolve (fs w) (storage_root w) = Returns tr0 /\
      FS.location tr = FS.location tr0 ++ PyPath.parts (PyPath.parse id)).
  { intros tr. rewrite Hjoin. unfold FS.resolve. cbn [PyPath.root PyPath.parts].
    assert (Hfrom : forall tr1,
      FS.walk (fs w) tr1
        (PyPath.parts (storage_root w) ++ PyPath.parts (PyPath.parse id)) = Returns tr ->
      exists tr0,
        FS.walk (fs w) tr1 (PyPath.parts (storage_root w)) = Returns tr0 /\
        FS.location tr = FS.location tr0 ++ PyPath.parts (PyPath.parse id)).
    { intros tr1. rewrite walk_app.
      destruct (FS.walk _ tr1 (PyPath.parts (storage_root w))) as [tr0|e]; [|done].
      intros Hw. exists tr0. split; [done|]. exact (walk_descends _ _ _ _ Hno Hw). }
    destruct (PyPath.root (storage_root w)).
    - destruct (FS.walk _ [] (FS.cwd (fs w))) as [trc|e]; [apply Hfrom | done].
    - apply Hfrom.
    - apply Hfrom. }
  split; [done|]. split; [|done].
  intros tr Hres. destruct (Hloc tr Hres) as (tr0 & H0 & Heq).
  exists tr0. split; [done|]. rewrite Heq. by apply prefix_app_r.
Qed.

Lemma plain_ids_are_confined_witness :
  confined Demo.world "INT1" /\
  FS.resolve (fs Demo.world) (video_folder Demo.world "INT1") <> Raises FileNotFoundError.
Proof.
  split.
  - apply (plain_ids_are_confined Demo.world "INT1").
    + vm_compute. reflexivity.
    + vm_compute. intros [H|[]]. discriminate.
  - vm_compute. discriminate.
Defined.

(** The id ["../private"] is read as given: the locator lists a sibling
    of the storage root. *)
Lemma traversal_escapes :
  has_traversal "../private" /\
  get_video_files Demo.world "../private"
    = Returns ["/data/videos/../private/s.mp4"] /\
  ~ confined Demo.world "../private".
Proof.
  split; [vm_compute; by left|]. split; [vm_compute; reflexivity|].
  intros Hconf.
  destruct (Hconf [("private", FS.Dir [("s.mp4", FS.File (Some (Demo.bytes "S")))]);
                   ("data", match Demo.tree with
                            | FS.Dir [(_, d)] => d
                            | _ => Demo.tree
                            end)])
    as (tr0 & Hroot & Hprefix).
  - vm_compute. reflexivity.
  - vm_compute in Hroot. injection Hroot as <-.
    vm_compute in Hprefix. destruct Hprefix as [k Hk]. discriminate.
Qed.

(** An absolute id replaces the storage root altogether. *)
Example absolute_id_replaces_root :
  get_video_files Demo.world "/data/private" = Returns ["/data/private/s.mp4"].
Proof. vm_compute. reflexivity. Qed.

(** C7 as stated does not hold. *)
Lemma traversal_is_not_blocked : ~ traversal_is_blocked.
Proof.
  intros Hblocked.
  destruct traversal_escapes as (Htrav & Hrun & Hesc).
  destruct (Hblocked Demo.world "../private" Htrav) as [(e & He) | Hconf].
  - rewrite Hrun in He. discriminate.
  - by apply Hesc.
Qed.

(** ** The analysis client *)

Lemma validate_values_dom {A} (f : pyval -> outcome A) (d : pydict) m :
  APIService.validate_values f d = Returns m -> dom m = dom d.
Proof.
  unfold APIService.validate_values. revert m.
  apply (map_fold_weak_ind
           (fun r d => forall m, r = Returns m -> dom m = dom d)).
  - intros m H. injection H as <-. by rewrite !dom_empty_L.
  - intros k v d' r Hk IH m.
    destruct r as [m'|e]; [|done].
    destruct (f v) as [a|e]; [|done].
    intros H. injection H as <-.
    rewrite !dom_insert_L. by rewrite (IH m' eq_refl).
Qed.

Lemma new_DetailedError_category w error de :
  APIService.new_DetailedError w error = Returns de ->
  sent_category error = Some (error_type de).
Proof.
  unfold APIService.new_DetailedError, sent_category, APIService.required.
  destruct error as [| | | | |l|kw]; try done.
  destruct (kw !! "error_type") as [ty|]; [|done].
  destruct (kw !! "from_time") as [v1|]; [|done].
  destruct (kw !! "to_time") as [v2|]; [|done].
  destruct (kw !! "confidence") as [v3|]; [|done].
  destruct ty; simpl; try done.
  destruct (APIService.validate_float w v1); [|done].
  destruct (APIService.validate_float w v2); [|done].
  destruct (APIService.validate_float w v3); [|done].
  intros H. by injection H as <-.
Qed.

Lemma comprehension_categories w errors des :
  APIService.comprehension (APIService.new_DetailedError w) errors = Returns des ->
  omap sent_category errors = map error_type des.
Proof.
  revert des. induction errors as [|error errors IH]; intros des.
  - simpl. intros H. by injection H as <-.
  - cbn [APIService.comprehension].
    destruct (APIService.new_DetailedError w error) as [de|e] eqn:Hde; [|done].
    destruct (APIService.comprehension _ errors) as [des'|e]; [|done].
    intros H. injection H as <-.
    change (omap sent_category (error :: errors))
      with (match sent_category error with
            | Some y => y :: omap sent_category errors
            | None => omap sent_category errors
            end).
    rewrite (new_DetailedError_category w error de Hde).
    by rewrite (IH des' eq_refl).
Qed.

(** A value that is iterated without being a list and without a fault
    has no item. *)
Lemma comprehension_keys w (keys : list string) des :
  APIService.comprehension (APIService.new_DetailedError w)
    (map VStr keys) = Returns des ->
  des = [].
Proof. destruct keys; simpl; [congruence | done]. Qed.

Lemma parse_response_fields w video_name response_json a :
  APIService.parse_response w video_name response_json = Returns a ->
  dom (errors_summary a) = sent_summary_keys response_json /\
  categories a = sent_categories response_json.
Proof.
  unfold APIService.parse_response, sent_summary_keys, sent_categories,
    response_data, categories.
  destruct response_json as [| | | | | |body]; try done.
  cbn [APIService.as_dict]. cbv beta iota.
  destruct (negb (truthy (APIService.get body "data" (VDict ∅)))); [done|].
  destruct (APIService.get body "data" (VDict ∅)) as [| | | | | |data]; try done.
  cbn [APIService.as_dict]. cbv beta iota.
  destruct (APIService.py_float w (APIService.get data "total_duration" _)); [|done].
  destruct (APIService.py_float w (APIService.get data "genuinity_score" _)); [|done].
  destruct (APIService.py_float w (APIService.get data "total_penalty" _)); [|done].
  destruct (APIService.iterate (APIService.get data "detailed_errors" (VList [])))
    as [errors|e] eqn:Hiter; [|done].
  destruct (APIService.comprehension _ errors) as [des|e] eqn:Hdes; [|done].
  destruct (APIService.parse_timestamp w _); [|done].
  destruct (APIService.validate_errors_summary w _) as [summary|e] eqn:Hsum; [|done].
  intros H. injection H as <-. simpl. split.
  - unfold APIService.validate_errors_summary in Hsum.
    destruct (APIService.get data "errors_summary" (VDict ∅)); try done.
    by apply validate_values_dom in Hsum.
  - unfold APIService.iterate in Hiter.
    destruct (APIService.get data "detailed_errors" (VList [])) as [| | | |s|l|d];
      try done; injection Hiter as <-.
    + rewrite <- (map_map (fun c => String c "") VStr) in Hdes.
      by rewrite (comprehension_keys _ _ _ Hdes).
    + by rewrite (comprehension_categories _ _ _ Hdes).
    + rewrite <- (map_map fst VStr) in Hdes.
      by rewrite (comprehension_keys _ _ _ Hdes).
Qed.

(** C9, as the code has it.  The keys of [errors_summary] and the
    categories of [detailed_errors] of a value the client produces are
    those the remote service sent; the client does not relate the two, so
    the invariant holds of the value exactly when it holds of the
    response. *)
Theorem analyze_video_copies_response w video_base64 video_name st a st' :
  APIService.analyze_video w video_base64 video_name st = (Returns a, st') ->
  exists response_json,
    api_post w (posts st) video_base64 = Returns response_json /\
    dom (errors_summary a) = sent_summary_keys response_json /\
    categories a = sent_categories response_json /\
    (summary_within_details a <->
     sent_summary_keys response_json ⊆ sent_categories response_json).
Proof.
  unfold APIService.analyze_video, bind, emit, lift. simpl.
  destruct (api_post w (posts st) video_base64) as [response_json|e]; [|done].
  destruct (APIService.parse_response w video_name response_json) as [a'|e] eqn:Hp;
    [|done].
  intros H. injection H as <- _.
  destruct (parse_response_fields _ _ _ _ Hp) as [Hkeys Hcats].
  exists response_json. split; [done|]. split; [done|]. split; [done|].
  unfold summary_within_details. by rewrite Hkeys, Hcats.
Qed.

Lemma analyze_video_copies_response_witness :
  exists a response_json,
    api_post Demo.world (posts []) "QQ==" = Returns response_json /\
    dom (errors_summary a) = sent_summary_keys response_json /\
    categories a = sent_categories response_json.
Proof.
  assert (Hrun : exists a,
    APIService.analyze_video Demo.world "QQ==" "a.mp4" []
    = (Returns a, [EvPost "QQ=="])) by (eexists; vm_compute; reflexivity).
  destruct Hrun as [a Hrun].
  destruct (analyze_video_copies_response Demo.world "QQ==" "a.mp4" [] a _ Hrun)
    as (response_json & Hpost & Hkeys & Hcats & _).
  exists a, response_json. split; [exact Hpost|]. split; [exact Hkeys | exact Hcats].
Defined.

(** The service of the demonstration sends a summary for a category and
    no detailed error; the client returns the value with both as sent,
    and it breaks the invariant. *)
Lemma client_breaks_invariant : ~ client_keeps_invariant.
Proof.
  intros Hkeeps.
  assert (Hrun :
    APIService.analyze_video Demo.world "QQ==" "a.mp4" [] =
    (Returns {| video_name := "a.mp4";
                total_duration := 12;
                genuinity_score := 8;
                total_penalty := 0;
                errors_summary := {[ "looking_away" := {[ "count" := 2%float ]} ]};
                detailed_errors := [];
                analysis_timestamp := {| isoformat := "2024-01-01T00:00:00" |} |},
     [EvPost "QQ=="])) by (vm_compute; reflexivity).
  apply Hkeeps in Hrun. unfold summary_within_details, categories in Hrun.
  simpl in Hrun. rewrite dom_singleton_L in Hrun.
  apply (not_elem_of_empty (C:=gset string) "looking_away").
  apply Hrun. apply elem_of_singleton. reflexivity.
Qed.

(** * Further properties *)

(** ** The trace of a run *)

Lemma opened_app st1 st2 : opened (st1 ++ st2) = opened st1 ++ opened st2.
Proof. apply omap_app. Qed.

Lemma posted_app st1 st2 : posted (st1 ++ st2) = posted st1 ++ posted st2.
Proof. apply omap_app. Qed.

Lemma drawn_app st1 st2 : drawn (st1 ++ st2) = drawn st1 ++ drawn st2.
Proof. apply omap_app. Qed.

Lemma reported_app st1 st2 : reported (st1 ++ st2) = reported st1 ++ reported st2.
Proof. apply omap_app. Qed.

(** One call of the analysis client adds one POST to the trace and
    nothing else, whether it returns or raises. *)
Lemma analyze_video_trace w b n st :
  snd (APIService.analyze_video w b n st) = st ++ [EvPost b].
Proof.
  unfold APIService.analyze_video, bind, emit, lift. simpl.
  destruct (api_post w (posts st) b); [|done].
  by destruct (APIService.parse_response w n _).
Qed.

(** The processing of one video opens it, and posts its encoding when it
    can be read. *)
Lemma process_video_trace w v st :
  snd (process_video w v st) =
  st ++ EvOpen v :: match readable w v with
                    | Some bs => [EvPost (Base64.b64encode bs)]
                    | None => []
                    end.
Proof.
  unfold process_video, video_to_base64, readable, bind, emit, lift, ret. simpl.
  destruct (FS.read_bytes (fs w) v) as [bs|e]; simpl; [|done].
  pose proof (analyze_video_trace w (Base64.b64encode bs) (PyPath.basename v)
                (st ++ [EvOpen v])) as Ht.
  destruct (APIService.analyze_video w _ _ _) as [[a|e] st']; simpl in *;
    rewrite Ht, <- app_assoc; done.
Qed.

Lemma process_video_unreadable w v st :
  readable w v = None ->
  exists e, process_video w v st = (Raises e, st ++ [EvOpen v]).
Proof.
  unfold process_video, video_to_base64, readable, bind, emit, lift. simpl.
  destruct (FS.read_bytes (fs w) v) as [bs|e]; [done|]. intros _. by exists e.
Qed.

Lemma after_items_trace w sel st :
  after_items w sel st =
  st ++ flat_map (fun v => EvOpen v :: match readable w v with
                                        | Some bs => [EvPost (Base64.b64encode bs)]
                                        | None => []
                                        end) sel.
Proof.
  revert st. induction sel as [|v sel IH]; intros st; simpl.
  - by rewrite app_nil_r.
  - rewrite IH, process_video_trace, <- app_assoc. done.
Qed.

Lemma after_items_opened w sel st :
  opened (after_items w sel st) = opened st ++ sel.
Proof.
  rewrite after_items_trace, opened_app. f_equal.
  induction sel as [|v sel IH]; simpl; [done|].
  destruct (readable w v); simpl; by rewrite IH.
Qed.

Lemma after_items_posted w sel st :
  posted (after_items w sel st) =
  posted st ++ map Base64.b64encode (omap (readable w) sel).
Proof.
  rewrite after_items_trace, posted_app. f_equal.
  induction sel as [|v sel IH]; [done|].
  cbn [flat_map]. change (omap (readable w) (v :: sel))
    with (match readable w v with
          | Some bs => bs :: omap (readable w) sel
          | None => omap (readable w) sel
          end).
  destruct (readable w v); simpl; by rewrite IH.
Qed.

Lemma after_items_quiet w sel st :
  drawn (after_items w sel st) = drawn st /\
  reported (after_items w sel st) = reported st.
Proof.
  rewrite after_items_trace, drawn_app, reported_app.
  assert (H : forall l,
    drawn (flat_map (fun v => EvOpen v :: match readable w v with
                                            | Some bs => [EvPost (Base64.b64encode bs)]
                                            | None => []
                                            end) l) = [] /\
    reported (flat_map (fun v => EvOpen v :: match readable w v with
                                               | Some bs => [EvPost (Base64.b64encode bs)]
                                               | None => []
                                               end) l) = []).
  { induction l as [|v l [IH1 IH2]]; simpl; [done|].
    destruct (readable w v); simpl; by rewrite ?IH1, ?IH2. }
  destruct (H sel) as [-> ->]. by rewrite !app_nil_r.
Qed.

(** ** The draws of the sampler *)

Lemma sample_pool_length {A} (pool : list A) j x y :
  pool !! j = Some x ->
  last pool = Some y ->
  length (take (length pool - 1) (<[j := y]> pool)) = (length pool - 1)%nat.
Proof.
  intros Hx Hy. pose proof (pool_step pool j x y Hx Hy) as Hperm.
  apply Permutation_length in Hperm. simpl in Hperm. lia.
Qed.

Lemma sample_pool_trace {A} w (pool : list A) k st :
  (k <= length pool)%nat ->
  snd (sample_pool w pool k st) = st ++ map EvRandom (countdown (length pool) k).
Proof.
  revert pool st. induction k as [|k IH]; intros pool st Hk; simpl.
  - by rewrite app_nil_r.
  - unfold bind at 1. rewrite randbelow_run.
    set (j := (random_raw w (draws st) mod length pool)%nat).
    assert (Hj : (j < length pool)%nat) by (apply Nat.mod_upper_bound; lia).
    destruct (lookup_lt_is_Some_2 pool j Hj) as [x Hx].
    assert (Hy : is_Some (last pool)).
    { destruct pool using rev_ind; [simpl in Hk; lia|]. rewrite last_snoc. eauto. }
    destruct Hy as [y Hy]. rewrite Hx, Hy.
    pose proof (sample_pool_length pool j x y Hx Hy) as Hlen.
    specialize (IH (take (length pool - 1) (<[j := y]> pool))
                  (st ++ [EvRandom (length pool)])).
    rewrite Hlen in IH. unfold bind, ret.
    destruct (sample_pool w _ k _) as [[sel|e] st2]; simpl in *;
      rewrite IH by lia; by rewrite <- app_assoc.
Qed.

(** What [select_random_videos] adds to the trace: nothing when it
    returns all candidates or the count is negative, and otherwise the
    draws of the loop [random.sample] runs for that size of population. *)
Lemma select_random_videos_bounds w (files : list string) num st :
  let n := requested w num in
  exists bounds,
    snd (select_random_videos w files num st) = st ++ map EvRandom bounds /\
    (Z.of_nat (length files) <= n \/ n < 0 -> bounds = []) /\
    (0 <= n < Z.of_nat (length files) ->
     if (length files <=? setsize (Z.to_nat n))%nat
     then bounds = countdown (length files) (Z.to_nat n)
     else exists redraws,
            bounds = replicate (Z.to_nat n + redraws) (length files) /\
            (n <= 1 -> redraws = O)).
Proof.
  intros n. unfold select_random_videos, sample. fold (requested w num). fold n.
  destruct (Z.of_nat (length files) <=? n) eqn:Hle.
  - apply Z.leb_le in Hle. exists []. simpl. rewrite app_nil_r.
    split; [done|]. split; [done | lia].
  - apply Z.leb_gt in Hle. destruct (0 <=? n) eqn:H0.
    + apply Z.leb_le in H0.
      assert (Hup : (n <=? Z.of_nat (length files)) = true) by (apply Z.leb_le; lia).
      rewrite Hup. cbn [andb].
      destruct (length files <=? setsize (Z.to_nat n))%nat.
      * exists (countdown (length files) (Z.to_nat n)).
        split; [apply sample_pool_trace; lia|]. split; [lia | done].
      * destruct (sample_set_spec w files (Z.to_nat n) [] st)
          as (sel & st' & js & r & Hrun & _ & _ & _ & Hst & Hone);
          [simpl; lia | constructor |].
        exists (replicate (Z.to_nat n + r) (length files)).
        rewrite Hrun. cbn [snd]. split; [by rewrite fmap_replicate|].
        split; [lia|]. intros _. exists r. split; [done|].
        intros H1. apply Hone; [lia | done].
    + apply Z.leb_gt in H0. exists []. cbn [andb]. simpl. rewrite app_nil_r.
      split; [done|]. split; [done | lia].
Qed.

Lemma select_random_videos_trace w (files : list string) num st :
  exists bounds,
    snd (select_random_videos w files num st) = st ++ map EvRandom bounds.
Proof.
  destruct (select_random_videos_bounds w files num st) as (bounds & H & _).
  by exists bounds.
Qed.



(** Two of 22 candidates: every draw is below 22, and the second index is
    drawn twice when the random source has it collide once. *)
Example select_random_videos_redraws :
  snd (select_random_videos Demo.world (map pretty (seq 0 22)) (Some 2) [])
  = [EvRandom 22; EvRandom 22; EvRandom 22].
Proof. vm_compute. reflexivity. Qed.

Lemma select_random_videos_quiet w files num st :
  opened (snd (select_random_videos w files num st)) = opened st /\
  posted (snd (select_random_videos w files num st)) = posted st /\
  reported (snd (select_random_videos w files num st)) = reported st.
Proof.
  destruct (select_random_videos_trace w files num st) as [bounds ->].
  rewrite opened_app, posted_app, reported_app.
  assert (H : forall bs, opened (map EvRandom bs) = [] /\
                         posted (map EvRandom bs) = [] /\
                         reported (map EvRandom bs) = []).
  { induction bs as [|b bs IH]; [done|]. exact IH. }
  destruct (H bounds) as (-> & -> & ->). by rewrite !app_nil_r.
Qed.

(** Whatever is selected is taken at distinct positions of the
    candidates. *)
Lemma select_random_videos_sub w (files : list string) num st sel st' :
  select_random_videos w files num st = (Returns sel, st') ->
  exists rest, sel ++ rest ≡ₚ files.
Proof.
  unfold select_random_videos, sample. fold (requested w num).
  destruct (Z.of_nat (length files) <=? requested w num).
  - unfold ret. intros H. injection H as <- _. exists []. by rewrite app_nil_r.
  - destruct ((0 <=? requested w num)
              && (requested w num <=? Z.of_nat (length files))) eqn:Hrange;
      [|unfold raise; congruence].
    apply andb_prop in Hrange as [H0 Hle]. apply Z.leb_le in H0, Hle.
    fold (sample w files (requested w num)).
    assert (Hs : sample w files (requested w num)
                 = fun st => if (length files <=? setsize (Z.to_nat (requested w num)))%nat
                             then sample_pool w files (Z.to_nat (requested w num)) st
                             else sample_set w files [] (Z.to_nat (requested w num)) st).
    { unfold sample. rewrite (proj2 (Z.leb_le _ _) H0), (proj2 (Z.leb_le _ _) Hle).
      cbn [andb]. by destruct (_ <=? _)%nat. }
    destruct (sample_spec w files (requested w num) st)
      as (sel' & st2 & Hrun & _ & Hrest); [lia|].
    rewrite Hs in Hrun.
    destruct (length files <=? setsize (Z.to_nat (requested w num)))%nat;
      rewrite Hrun; intros H; by injection H as <- _.
Qed.

(** ** The effects of a whole run *)

(** [analyze_videos], stage by stage. *)
Lemma analyze_videos_run w id num st :
  analyze_videos w id num st =
  match get_video_files w id with
  | Raises e => (Raises e, st)
  | Returns [] => (Returns (no_videos_result id), st)
  | Returns files =>
      match select_random_videos w files num st with
      | (Raises e, st1) => (Raises e, st1)
      | (Returns sel, st1) =>
          let succ := successes (item_outcomes w sel st1) in
          let rs := map fst succ in
          let st2 := after_items w sel st1 in
          if is_empty succ then (Returns all_failed_result, st2)
          else
            let avg := mean w (map summary_genuinity_score rs) in
            let report := PDFService.generate_report w id avg rs (map snd succ) st2 in
            (Returns (success_result id rs avg (opt_str (fst report))), snd report)
      end
  end.
Proof.
  destruct (get_video_files w id) as [[|f files]|e] eqn:Hfiles.
  - unfold analyze_videos, bind, lift. by rewrite Hfiles.
  - destruct (select_random_videos w (f :: files) num st) as [[sel|e] st1] eqn:Hsel.
    + exact (analyze_videos_sampled w id num st (f :: files) sel st1 Hfiles
               ltac:(discriminate) Hsel).
    + unfold analyze_videos, bind, lift. rewrite Hfiles. simpl. by rewrite Hsel.
  - unfold analyze_videos, bind, lift. by rewrite Hfiles.
Qed.

Lemma generate_report_trace w id avg rs ds st :
  snd (PDFService.generate_report w id avg rs ds st) = st ++ [EvReport (report_path w id)].
Proof. by rewrite generate_report_run. Qed.

Lemma generate_report_path w id avg rs ds st :
  fst (PDFService.generate_report w id avg rs ds st) = Returns (report_path w id) \/
  exists e, fst (PDFService.generate_report w id avg rs ds st) = Raises e.
Proof.
  rewrite generate_report_run. cbv zeta. fold (report_path w id).
  destruct (pdf_build w _ _ _ _ _); simpl; eauto.
Qed.

(** X2. In a run of [analyze_videos], every sampled video is opened once,
    in sampled order and whatever happened to the ones before it; the
    analysis client is called once for each sampled video that can be
    read, with the base64 encoding of its bytes, and never for one that
    cannot; and every video opened is one of the located candidates. *)
Theorem posts_carry_file_contents w id num st files sel st1 o st' :
  get_video_files w id = Returns files ->
  select_random_videos w files num st = (Returns sel, st1) ->
  analyze_videos w id num st = (o, st') ->
  opened st' = opened st ++ sel /\
  posted st' = posted st ++ map Base64.b64encode (omap (readable w) sel) /\
  (forall p, In p sel -> In p files).
Proof.
  intros Hfiles Hsel Hrun.
  destruct (select_random_videos_sub w files num st sel st1 Hsel) as [rest Hrest].
  assert (Hsub : forall p, In p sel -> In p files).
  { intros p Hp. apply list_elem_of_In. rewrite <- Hrest.
    apply elem_of_app. left. by apply list_elem_of_In. }
  destruct (select_random_videos_quiet w files num st) as (Ho & Hp & _).
  rewrite Hsel in Ho, Hp. simpl in Ho, Hp.
  rewrite analyze_videos_run, Hfiles in Hrun.
  destruct files as [|f files'].
  - apply select_nil in Hsel as Hnil. subst sel. injection Hrun as _ <-.
    simpl. by rewrite !app_nil_r.
  - rewrite Hsel in Hrun. cbv zeta in Hrun.
    destruct (is_empty _).
    + injection Hrun as _ <-.
      by rewrite after_items_opened, after_items_posted, Ho, Hp.
    + injection Hrun as _ <-.
      rewrite generate_report_trace, opened_app, posted_app. simpl.
      by rewrite !app_nil_r, after_items_opened, after_items_posted, Ho, Hp.
Qed.

Lemma posts_carry_file_contents_witness :
  opened (snd (analyze_videos Demo.world "INT1" (Some 4) [])) = Demo.int1_files /\
  posted (snd (analyze_videos Demo.world "INT1" (Some 4) [])) = ["QQ=="; "RA=="; "Rw=="].
Proof.
  destruct (analyze_videos Demo.world "INT1" (Some 4) []) as [o st'] eqn:Hrun.
  destruct (posts_carry_file_contents Demo.world "INT1" (Some 4) []
              Demo.int1_files Demo.int1_files [] o st')
    as (Hopened & Hposted & _).
  - vm_compute. reflexivity.
  - vm_compute. reflexivity.
  - exact Hrun.
  - split; [exact Hopened|]. simpl. rewrite Hposted. vm_compute. reflexivity.
Defined.

(** X3. [analyze_videos] starts a report exactly once in a run that ends
    in success, at the path made of the output directory, the interview
    id and the time stamp, and the result carries that path or [None];
    it starts none in a run that ends in an error result or raises. *)
Theorem report_is_started_once w id num st o st' :
  analyze_videos w id num st = (o, st') ->
  match o with
  | Returns d =>
      (d !! "status" = Some (VStr "success") ->
       reported st' = reported st ++ [report_path w id] /\
       (d !! "pdf_report_path" = Some (VStr (report_path w id)) \/
        d !! "pdf_report_path" = Some VNone)) /\
      (d !! "status" = Some (VStr "error") -> reported st' = reported st)
  | Raises _ => reported st' = reported st
  end.
Proof.
  rewrite analyze_videos_run.
  destruct (get_video_files w id) as [[|f files]|e].
  - intros H. injection H as <- <-. split; [discriminate | done].
  - pose proof (select_random_videos_quiet w (f :: files) num st) as (_ & _ & Hr).
    destruct (select_random_videos w (f :: files) num st) as [[sel|e] st1];
      simpl in Hr.
    + cbv zeta. destruct (after_items_quiet w sel st1) as [_ Hr2].
      destruct (is_empty _).
      * intros H. injection H as <- <-. split; [discriminate|]. intros _. congruence.
      * intros H. injection H as <- <-. split; [|discriminate]. intros _.
        rewrite generate_report_trace, reported_app, Hr2, Hr. split; [done|].
        destruct (generate_report_path w id
                    (mean w (map summary_genuinity_score
                       (map fst (successes (item_outcomes w sel st1)))))
                    (map fst (successes (item_outcomes w sel st1)))
                    (map snd (successes (item_outcomes w sel st1)))
                    (after_items w sel st1)) as [Hp | [e Hp]]; rewrite Hp.
        -- by left.
        -- by right.
    + intros H. by injection H as <- <-.
  - intros H. by injection H as <- <-.
Qed.

Lemma report_is_started_once_witness :
  reported (snd (analyze_videos Demo.world "INT1" None []))
  = ["./reports/INT1_20240101_000000.pdf"] /\
  reported (snd (analyze_videos Demo.world "INT2" None [])) = [].
Proof.
  split.
  - destruct (analyze_videos Demo.world "INT1" None []) as [o st'] eqn:Hrun.
    pose proof (report_is_started_once Demo.world "INT1" None [] o st' Hrun) as H.
    assert (Hs : match o with
                 | Returns d => d !! "status" = Some (VStr "success")
                 | Raises _ => False
                 end).
    { replace o with (fst (analyze_videos Demo.world "INT1" None []))
        by (by rewrite Hrun). vm_compute. reflexivity. }
    destruct o as [d|e]; [|destruct Hs].
    destruct H as [Hsuccess _]. destruct (Hsuccess Hs) as [Hrep _].
    simpl. rewrite Hrep. vm_compute. reflexivity.
  - destruct (analyze_videos Demo.world "INT2" None []) as [o st'] eqn:Hrun.
    pose proof (report_is_started_once Demo.world "INT2" None [] o st' Hrun) as H.
    assert (Hs : match o with
                 | Returns d => d !! "status" = Some (VStr "error")
                 | Raises _ => False
                 end).
    { replace o with (fst (analyze_videos Demo.world "INT2" None []))
        by (by rewrite Hrun). vm_compute. reflexivity. }
    destruct o as [d|e]; [|destruct Hs].
    destruct H as [_ Herror]. simpl. by rewrite (Herror Hs).
Defined.

(** ** Counts that select nothing *)

(** X4. With candidates and a negative count (the argument, or the
    configured default), [analyze_videos] raises [ValueError], the fault
    of [random.sample], before any draw, any file opened or any call of
    the analysis client: it returns no error result. *)
Theorem negative_count_raises w id num st files :
  get_video_files w id = Returns files ->
  files <> [] ->
  requested w num < 0 ->
  analyze_videos w id num st = (Raises ValueError, st).
Proof.
  intros Hfiles Hne Hneg. rewrite analyze_videos_run, Hfiles.
  destruct files as [|f files']; [done|].
  unfold select_random_videos, sample. fold (requested w num).
  assert (Hle : (Z.of_nat (length (f :: files')) <=? requested w num) = false).
  { apply Z.leb_gt. simpl length. lia. }
  assert (H0 : (0 <=? requested w num) = false) by (apply Z.leb_gt; lia).
  by rewrite Hle, H0.
Qed.

Lemma negative_count_raises_witness :
  analyze_videos Demo.world "INT1" (Some (-1)) [] = (Raises ValueError, []).
Proof.
  apply (negative_count_raises Demo.world "INT1" (Some (-1)) [] Demo.int1_files).
  - vm_compute. reflexivity.
  - discriminate.
  - reflexivity.
Defined.

(** X5. With candidates and a count of zero, [analyze_videos] selects
    nothing and returns the error result ["Failed to analyze any
    videos"], without a draw, a file opened or a call of the analysis
    client. *)
Theorem zero_count_reports_failure w id num st files :
  get_video_files w id = Returns files ->
  files <> [] ->
  requested w num = 0 ->
  analyze_videos w id num st = (Returns all_failed_result, st).
Proof.
  intros Hfiles Hne Hzero. rewrite analyze_videos_run, Hfiles.
  destruct files as [|f files']; [done|].
  unfold select_random_videos, sample. fold (requested w num). rewrite Hzero.
  assert (Hle : (Z.of_nat (length (f :: files')) <=? 0) = false).
  { apply Z.leb_gt. simpl length. lia. }
  assert (Hup : (0 <=? Z.of_nat (length (f :: files'))) = true) by (apply Z.leb_le; lia).
  rewrite Hle, Hup. change (0 <=? 0) with true. cbn [andb Z.to_nat].
  by destruct (_ <=? _)%nat.
Qed.

Lemma zero_count_reports_failure_witness :
  analyze_videos Demo.world "INT1" (Some 0) [] = (Returns all_failed_result, []).
Proof.
  apply (zero_count_reports_failure Demo.world "INT1" (Some 0) [] Demo.int1_files).
  - vm_compute. reflexivity.
  - discriminate.
  - reflexivity.
Defined.

(** ** The summaries of a result *)




(** ** Paths as text *)

Lemma append_assoc s1 s2 s3 : (s1 +:+ s2) +:+ s3 = s1 +:+ s2 +:+ s3.
Proof.
  induction s1 as [|a s1 IH]; [done|].
  change (String a ((s1 +:+ s2) +:+ s3) = String a (s1 +:+ s2 +:+ s3)).
  by rewrite IH.
Qed.


Lemma chars_append s1 s2 : chars (s1 +:+ s2) = chars s1 ++ chars s2.
Proof. unfold chars. induction s1 as [|a s1 IH]; simpl; [done | by rewrite IH]. Qed.

Lemma join_snoc ps n :
  ps <> [] -> Str.join "/" (ps ++ [n]) = Str.join "/" ps +:+ String "/" n.
Proof.
  induction ps as [|p ps IH]; [done|]. intros _.
  destruct ps as [|q ps].
  - reflexivity.
  - change (Str.join "/" ((p :: q :: ps) ++ [n]))
      with (p +:+ String "/" (Str.join "/" ((q :: ps) ++ [n]))).
    rewrite IH by done.
    change (Str.join "/" (p :: q :: ps)) with (p +:+ String "/" (Str.join "/" (q :: ps))).
    rewrite append_assoc. reflexivity.
Qed.

(** The text of a child path is a prefix that does not depend on the name,
    a slash, and the name. *)
Lemma to_str_child p n :
  PyPath.to_str (PyPath.child p n) =
  match dir_prefix p with
  | None => n
  | Some s => s +:+ String "/" n
  end.
Proof.
  unfold PyPath.to_str, PyPath.child, dir_prefix. cbn [PyPath.root PyPath.parts].
  destruct (PyPath.parts p) as [|x ps] eqn:Hparts.
  - by destruct (PyPath.root p).
  - assert (Hj : forall a,
      a +:+ Str.join "/" ((x :: ps) ++ [n])
      = (a +:+ Str.join "/" (x :: ps)) +:+ String "/" n).
    { intros a. rewrite join_snoc by done. by rewrite append_assoc. }
    change ((x :: ps) ++ [n]) with (x :: (ps ++ [n])) in Hj.
    cbn [app]. destruct (PyPath.root p); apply Hj.
Qed.


(** [os.path.basename] of the text of a child path is the name, when the
    name has no slash. *)
Lemma basename_child p n :
  ~ In "/"%char (chars n) -> PyPath.basename (PyPath.to_str (PyPath.child p n)) = n.
Proof.
  intros Hn. rewrite to_str_child. unfold PyPath.basename.
  destruct (dir_prefix p) as [s|].
  - rewrite (rfind_app "/" s n Hn). unfold Str.len.
    replace (Z.to_nat (Z.of_nat (String.length s) + 1))
      with (String.length (s +:+ "/")) by (rewrite length_append; simpl; lia).
    change (s +:+ String "/" n) with (s +:+ "/" +:+ n).
    rewrite <- append_assoc. apply drop_app.
  - by rewrite (rfind_absent "/" n Hn).
Qed.

Lemma split_on_no_sep sep s x : In x (Str.split_on sep s) -> ~ In sep (chars x).
Proof.
  revert x. induction s as [|c s IH]; intros x; simpl.
  - intros [<-|[]]. simpl. tauto.
  - destruct (Ascii.eqb_spec c sep) as [->|Hc].
    + intros [<-|Hx]; [simpl; tauto | by apply IH].
    + destruct (Str.split_on sep s) as [|t ts] eqn:Hs.
      * intros [<-|[]]. simpl. intros [H|[]]. congruence.
      * intros [<-|Hx].
        -- simpl. intros [H|H]; [congruence|]. apply (IH t); [by left | done].
        -- apply IH. by right.
Qed.

Lemma split_on_plain sep s : ~ In sep (chars s) -> Str.split_on sep s = [s].
Proof.
  induction s as [|c s IH]; simpl; [done|]. intros Hin.
  destruct (Ascii.eqb_spec c sep) as [->|Hc]; [tauto|].
  rewrite IH by tauto. done.
Qed.

Lemma split_on_append sep s1 s2 :
  ~ In sep (chars s1) ->
  Str.split_on sep (s1 +:+ String sep s2) = s1 :: Str.split_on sep s2.
Proof.
  induction s1 as [|c s1 IH]; intros Hin.
  - simpl. by rewrite Ascii.eqb_refl.
  - change (String c s1 +:+ String sep s2) with (String c (s1 +:+ String sep s2)).
    simpl in Hin. cbn [Str.split_on].
    destruct (Ascii.eqb_spec c sep) as [->|Hc]; [tauto|].
    rewrite IH by tauto. done.
Qed.

Lemma split_on_join ps :
  ps <> [] ->
  Forall clean_part ps ->
  Str.split_on "/" (Str.join "/" ps) = ps.
Proof.
  induction ps as [|p ps IH]; [done|]. intros _ Hclean.
  apply Forall_cons in Hclean as [[_ Hp] Hps].
  destruct ps as [|q ps].
  - by apply split_on_plain.
  - change (Str.join "/" (p :: q :: ps)) with (p +:+ String "/" (Str.join "/" (q :: ps))).
    rewrite split_on_append by done. by rewrite IH.
Qed.

Lemma filter_clean ps : Forall clean_part ps -> List.filter PyPath.keep_part ps = ps.
Proof.
  induction 1 as [|p ps [Hk _] _ IH]; simpl; [done|]. by rewrite Hk, IH.
Qed.

(** A clean component starts with a character that is not a slash. *)
Lemma clean_part_head x :
  clean_part x -> exists c s, x = String c s /\ c <> "/"%char.
Proof.
  intros [Hk Hs]. destruct x as [|c s]; [done|].
  exists c, s. split; [done|]. intros ->. apply Hs. by left.
Qed.

Lemma join_head ps :
  ps <> [] -> Forall clean_part ps ->
  exists c s, Str.join "/" ps = String c s /\ c <> "/"%char.
Proof.
  destruct ps as [|p ps]; [done|]. intros _ Hclean.
  apply Forall_cons in Hclean as [Hp _].
  destruct (clean_part_head p Hp) as (c & s & -> & Hc).
  destruct ps as [|q ps]; [by exists c, s|].
  exists c, (s +:+ String "/" (Str.join "/" (q :: ps))). done.
Qed.

Lemma prefix_slash c s t : c <> "/"%char -> String.prefix (String "/" t) (String c s) = false.
Proof.
  intros Hc. destruct (String.prefix (String "/" t) (String c s)) eqn:E; [|done].
  apply String.prefix_correct in E. simpl in E. injection E as E _. congruence.
Qed.

Lemma parse_anchor_relative c s :
  c <> "/"%char -> PyPath.parse_anchor (String c s) = PyPath.Relative.
Proof.
  intros Hc. unfold PyPath.parse_anchor, Str.starts_with.
  by rewrite !(prefix_slash c s _ Hc).
Qed.

Lemma parse_anchor_root c s :
  c <> "/"%char -> PyPath.parse_anchor (String "/" (String c s)) = PyPath.Root.
Proof.
  intros Hc. unfold PyPath.parse_anchor, Str.starts_with.
  assert (H3 : String.prefix "///" (String "/" (String c s)) = false).
  { destruct (String.prefix "///" _) eqn:E; [|done].
    apply String.prefix_correct in E. simpl in E. injection E as E _. congruence. }
  assert (H2 : String.prefix "//" (String "/" (String c s)) = false).
  { destruct (String.prefix "//" _) eqn:E; [|done].
    apply String.prefix_correct in E. simpl in E. injection E as E. congruence. }
  by rewrite H3, H2.
Qed.

Lemma parse_anchor_double c s :
  c <> "/"%char ->
  PyPath.parse_anchor (String "/" (String "/" (String c s))) = PyPath.DoubleRoot.
Proof.
  intros Hc. unfold PyPath.parse_anchor, Str.starts_with.
  assert (H3 : String.prefix "///" (String "/" (String "/" (String c s))) = false).
  { destruct (String.prefix "///" _) eqn:E; [|done].
    apply String.prefix_correct in E. simpl in E. injection E as E. congruence. }
  by rewrite H3.
Qed.

Lemma split_on_slash t : Str.split_on "/" (String "/" t) = "" :: Str.split_on "/" t.
Proof. reflexivity. Qed.

(** Parsing the text of a path with clean components gives the path
    back. *)
Lemma parse_to_str p :
  PyPath.parts p <> [] ->
  Forall clean_part (PyPath.parts p) ->
  PyPath.parse (PyPath.to_str p) = p.
Proof.
  destruct p as [a ps]. cbn [PyPath.parts]. intros Hne Hclean.
  destruct (join_head ps Hne Hclean) as (c & s & Hj & Hc).
  pose proof (split_on_join ps Hne Hclean) as Hsplit.
  pose proof (filter_clean ps Hclean) as Hfilter.
  assert (Hstr : PyPath.to_str {| PyPath.root := a; PyPath.parts := ps |}
                 = PyPath.anchor_str a +:+ Str.join "/" ps).
  { unfold PyPath.to_str. cbn [PyPath.root PyPath.parts].
    destruct a, ps; done. }
  rewrite Hstr. unfold PyPath.parse. destruct a; cbn [PyPath.anchor_str].
  - change ("" +:+ Str.join "/" ps) with (Str.join "/" ps).
    rewrite Hsplit, Hfilter, Hj. by rewrite (parse_anchor_relative c s Hc).
  - change ("/" +:+ Str.join "/" ps) with (String "/" (Str.join "/" ps)).
    rewrite split_on_slash, Hsplit.
    change (List.filter PyPath.keep_part ("" :: ps))
      with (List.filter PyPath.keep_part ps).
    rewrite Hfilter, Hj. by rewrite (parse_anchor_root c s Hc).
  - change ("//" +:+ Str.join "/" ps) with (String "/" (String "/" (Str.join "/" ps))).
    rewrite !split_on_slash, Hsplit.
    change (List.filter PyPath.keep_part ("" :: "" :: ps))
      with (List.filter PyPath.keep_part ps).
    rewrite Hfilter, Hj. by rewrite (parse_anchor_double c s Hc).
Qed.

Lemma parse_parts_clean s : Forall clean_part (PyPath.parts (PyPath.parse s)).
Proof.
  unfold PyPath.parse. simpl. apply List.Forall_forall. intros x Hx.
  apply filter_In in Hx as [Hx Hk]. split; [done|]. by apply (split_on_no_sep "/" s).
Qed.

Lemma video_folder_clean w id : Forall clean_part (PyPath.parts (video_folder w id)).
Proof.
  unfold video_folder, PyPath.joinpath.
  destruct (PyPath.root (PyPath.parse id)); simpl; try apply parse_parts_clean.
  apply Forall_app. split; apply parse_parts_clean.
Qed.

Lemma video_name_clean w n :
  is_video_name w n -> ~ In "/"%char (chars n) -> clean_part n.
Proof.
  intros Hn Hs. split; [|done].
  destruct Hn as (ext & (stem & -> & Hstem & Hext & _) & _).
  unfold PyPath.keep_part. apply andb_true_intro. split; apply negb_true_iff.
  - destruct stem; [done|]. reflexivity.
  - apply String.eqb_neq. intros H.
    apply (f_equal String.length) in H. rewrite !length_append in H. simpl in H.
    destruct stem; [done|]. destruct ext; [done|]. simpl in H. lia.
Qed.

(** The text of a child path with a clean name is parsed back to it. *)
Lemma parse_child w id n :
  clean_part n ->
  PyPath.parse (PyPath.to_str (PyPath.child (video_folder w id) n))
  = PyPath.child (video_folder w id) n.
Proof.
  intros Hn. apply parse_to_str; simpl.
  - by destruct (PyPath.parts (video_folder w id)).
  - apply Forall_app. split; [apply video_folder_clean | by apply Forall_singleton].
Qed.

(** ** What the locator returns *)



(** X8. When the storage location is a directory whose entry names have
    no slash, every path [get_video_files] returns leads back to the
    entry it was listed for: its base name is the name of a regular file
    of the directory, and opening it reads that file. *)
Theorem located_paths_lead_back w id es files :
  FS.stat (fs w) (video_folder w id) = Returns (FS.Dir es) ->
  (forall n, In n (map fst es) -> ~ In "/"%char (chars n)) ->
  get_video_files w id = Returns files ->
  forall p, In p files ->
    exists content,
      FS.lookup_entry (PyPath.basename p) es = Some (FS.File content) /\
      is_video_name w (PyPath.basename p) /\
      FS.read_bytes (fs w) p =
        match content with
        | Some bs => Returns bs
        | None => Raises PermissionError
        end.
Proof.
  intros Hstat Hslash Hfiles p Hp.
  rewrite (get_video_files_returns w id es files Hstat Hfiles) in Hp.
  apply in_map_iff in Hp as (n & <- & Hn). apply filter_In in Hn as [Hin Htest].
  destruct (is_video_file_child w id es n Hstat Htest) as (Hname & Hlen & content & Hc).
  pose proof (Hslash n Hin) as Hns.
  rewrite (basename_child _ n Hns). exists content. split; [done|]. split; [done|].
  unfold FS.read_bytes.
  rewrite (parse_child w id n (video_name_clean w n Hname Hns)).
  fold (FS.stat (fs w) (PyPath.child (video_folder w id) n)).
  rewrite (stat_child _ _ n es Hstat (video_name_not_dotdot w n Hname) Hlen), Hc.
  by destruct content.
Qed.

Lemma located_paths_lead_back_witness :
  exists content,
    FS.lookup_entry (PyPath.basename "/data/videos/INT1/b.MP4")
      [("a.mp4", FS.File (Some (Demo.bytes "A"))); ("b.MP4", FS.File None);
       ("notes.txt", FS.File (Some [])); ("d.mov", FS.File (Some (Demo.bytes "D")));
       ("e.mkv", FS.Dir []); ("g.avi", FS.File (Some (Demo.bytes "G")))]
    = Some (FS.File content) /\
    is_video_name Demo.world (PyPath.basename "/data/videos/INT1/b.MP4") /\
    FS.read_bytes (fs Demo.world) "/data/videos/INT1/b.MP4" =
      match content with
      | Some bs => Returns bs
      | None => Raises PermissionError
      end.
Proof.
  apply (located_paths_lead_back Demo.world "INT1" _ Demo.int1_files).
  - vm_compute. reflexivity.
  - intros n Hn. simpl in Hn.
    repeat (destruct Hn as [<-|Hn]; [vm_compute; intuition discriminate|]).
    destruct Hn.
  - vm_compute. reflexivity.
  - right. left. reflexivity.
Defined.

(** ** The encoding of a video *)

Lemma digits_ok : forallb (fun i => digit_ok (N.of_nat i)) (seq 0 64) = true.
Proof. vm_compute. reflexivity. Qed.

(** The 64 digits are distinct, and none is the padding character. *)
Lemma undigit_digit n :
  (n < 64)%N ->
  undigit (Base64.digit n) = Some n /\ Ascii.eqb (Base64.digit n) "=" = false.
Proof.
  intros Hn. pose proof digits_ok as H. rewrite forallb_forall in H.
  specialize (H (N.to_nat n)). rewrite N2Nat.id in H.
  assert (Hin : In (N.to_nat n) (seq 0 64)) by (apply in_seq; lia).
  apply H in Hin. unfold digit_ok in Hin. apply andb_prop in Hin as [H1 H2].
  split.
  - destruct (undigit (Base64.digit n)) as [m|]; [|done].
    apply N.eqb_eq in H1. by subst.
  - by apply negb_true_iff.
Qed.

Lemma byte_of_to_N b : byte_of (Byte.to_N b) = b.
Proof. unfold byte_of. by rewrite Byte.of_to_N. Qed.

Lemma to_N_bound b : (Byte.to_N b < 256)%N.
Proof. pose proof (Byte.to_N_bounded b). lia. Qed.

(** Lists three items at a time. *)
Lemma triples_ind {A} (P : list A -> Prop) :
  P [] ->
  (forall a, P [a]) ->
  (forall a b, P [a; b]) ->
  (forall a b c l, P l -> P (a :: b :: c :: l)) ->
  forall l, P l.
Proof.
  intros H0 H1 H2 H3 l.
  assert (H : P l /\ (forall a, P (a :: l)) /\ (forall a b, P (a :: b :: l))).
  { induction l as [|x l (IH0 & IH1 & IH2)]; [done|].
    split; [apply IH1|]. split; [intros a; apply IH2|]. intros a b. by apply H3. }
  apply H.
Qed.

Lemma b64encode_length bs :
  String.length (Base64.b64encode bs) = (4 * ((length bs + 2) / 3))%nat.
Proof.
  induction bs as [|a|a b|a b c l IH] using triples_ind; try reflexivity.
  cbn [Base64.b64encode String.length length]. rewrite IH.
  replace (S (S (S (length l))) + 2)%nat with (1 * 3 + (length l + 2))%nat by lia.
  rewrite Nat.div_add_l by done. lia.
Qed.

Lemma b64decode_encode bs : b64decode (Base64.b64encode bs) = Some bs.
Proof.
  induction bs as [|a|a b|a b c l IH] using triples_ind.
  - reflexivity.
  - pose proof (to_N_bound a) as Ha.
    cbn [Base64.b64encode b64decode].
    destruct (undigit_digit (Byte.to_N a / 4)) as [-> _]; [n_arith|].
    destruct (undigit_digit (Byte.to_N a mod 4 * 16)) as [-> _]; [n_arith|].
    change (Ascii.eqb "=" "=") with true. cbn [andb]. change (String.eqb "" "") with true.
    cbv iota.
    replace (Byte.to_N a / 4 * 4 + Byte.to_N a mod 4 * 16 / 16)%N
      with (Byte.to_N a) by n_arith.
    by rewrite byte_of_to_N.
  - pose proof (to_N_bound a) as Ha. pose proof (to_N_bound b) as Hb.
    cbn [Base64.b64encode b64decode].
    destruct (undigit_digit (Byte.to_N a / 4)) as [-> _]; [n_arith|].
    destruct (undigit_digit (Byte.to_N a mod 4 * 16 + Byte.to_N b / 16))
      as [-> _]; [n_arith|].
    destruct (undigit_digit (Byte.to_N b mod 16 * 4)) as [-> ->]; [n_arith|].
    change (Ascii.eqb "=" "=") with true. change (String.eqb "" "") with true.
    cbv iota.
    replace (Byte.to_N a / 4 * 4
             + (Byte.to_N a mod 4 * 16 + Byte.to_N b / 16) / 16)%N
      with (Byte.to_N a) by n_arith.
    replace ((Byte.to_N a mod 4 * 16 + Byte.to_N b / 16) mod 16 * 16
             + Byte.to_N b mod 16 * 4 / 4)%N
      with (Byte.to_N b) by n_arith.
    by rewrite !byte_of_to_N.
  - pose proof (to_N_bound a) as Ha. pose proof (to_N_bound b) as Hb.
    pose proof (to_N_bound c) as Hc.
    cbn [Base64.b64encode b64decode]. fold b64decode. rewrite IH.
    destruct (undigit_digit (Byte.to_N a / 4)) as [-> _]; [n_arith|].
    destruct (undigit_digit (Byte.to_N a mod 4 * 16 + Byte.to_N b / 16))
      as [-> _]; [n_arith|].
    destruct (undigit_digit (Byte.to_N b mod 16 * 4 + Byte.to_N c / 64))
      as [-> ->]; [n_arith|].
    destruct (undigit_digit (Byte.to_N c mod 64)) as [-> ->]; [n_arith|].
    replace (Byte.to_N a / 4 * 4
             + (Byte.to_N a mod 4 * 16 + Byte.to_N b / 16) / 16)%N
      with (Byte.to_N a) by n_arith.
    replace ((Byte.to_N a mod 4 * 16 + Byte.to_N b / 16) mod 16 * 16
             + (Byte.to_N b mod 16 * 4 + Byte.to_N c / 64) / 4)%N
      with (Byte.to_N b) by n_arith.
    replace ((Byte.to_N b mod 16 * 4 + Byte.to_N c / 64) mod 4 * 64
             + Byte.to_N c mod 64)%N
      with (Byte.to_N c) by n_arith.
    by rewrite !byte_of_to_N.
Qed.

(** X9. [video_to_base64] opens the file once; when the file can be read
    it returns a text of [4 * ceil(n / 3)] characters for [n] bytes, from
    which base64 decoding gives the bytes back; when it cannot, the fault
    of the read is raised again. *)
Theorem video_to_base64_round_trip w path st :
  match FS.read_bytes (fs w) path with
  | Returns bs =>
      exists s,
        video_to_base64 w path st = (Returns s, st ++ [EvOpen path]) /\
        b64decode s = Some bs /\
        String.length s = (4 * ((length bs + 2) / 3))%nat
  | Raises e => video_to_base64 w path st = (Raises e, st ++ [EvOpen path])
  end.
Proof.
  unfold video_to_base64, bind, emit, lift, ret. simpl.
  destruct (FS.read_bytes (fs w) path) as [bs|e]; [|done].
  exists (Base64.b64encode bs). split; [done|].
  split; [apply b64decode_encode | apply b64encode_length].
Qed.

(** ** What the analysis client makes of a response *)

Lemma analyze_video_run w b n st :
  APIService.analyze_video w b n st =
  (match api_post w (posts st) b with
   | Returns response_json => APIService.parse_response w n response_json
   | Raises e => Raises e
   end, st ++ [EvPost b]).
Proof.
  unfold APIService.analyze_video, bind, emit, lift. simpl.
  by destruct (api_post w (posts st) b).
Qed.

(** X10. A response body that is an object without [data], or whose
    [data] is empty or null, makes [analyze_video] raise [ValueError],
    after its one POST. *)
Theorem analyze_video_needs_data w b n st body :
  api_post w (posts st) b = Returns (VDict body) ->
  truthy (APIService.get body "data" (VDict ∅)) = false ->
  APIService.analyze_video w b n st = (Raises ValueError, st ++ [EvPost b]).
Proof.
  intros Hpost Hdata. rewrite analyze_video_run, Hpost.
  unfold APIService.parse_response. cbn [APIService.as_dict]. by rewrite Hdata.
Qed.

Lemma analyze_video_needs_data_witness :
  APIService.analyze_video
    (with_api_post Demo.world (fun _ _ => Returns (VDict {[ "status" := VStr "success" ]})))
    "QQ==" "a.mp4" []
  = (Raises ValueError, [EvPost "QQ=="]).
Proof.
  apply (analyze_video_needs_data _ "QQ==" "a.mp4" [] {[ "status" := VStr "success" ]}).
  - reflexivity.
  - reflexivity.
Defined.

Lemma validate_values_empty {A} (f : pyval -> outcome A) :
  APIService.validate_values f ∅ = Returns ∅.
Proof. unfold APIService.validate_values. apply map_fold_empty. Qed.

Lemma get_missing (d : pydict) key default :
  d !! key = None -> APIService.get d key default = default.
Proof. unfold APIService.get. by intros ->. Qed.

Lemma get_present (d : pydict) key default v :
  d !! key = Some v -> APIService.get d key default = v.
Proof. unfold APIService.get. by intros ->. Qed.

(** The parsing of a response whose [data] is an object, field by
    field. *)
Lemma parse_response_data w n body data a :
  body !! "data" = Some (VDict data) ->
  APIService.parse_response w n (VDict body) = Returns a ->
  exists errors,
    video_name a = n /\
    APIService.py_float w (APIService.get data "total_duration" (VFloat 0))
      = Returns (total_duration a) /\
    APIService.py_float w (APIService.get data "genuinity_score" (VFloat 0))
      = Returns (genuinity_score a) /\
    APIService.py_float w (APIService.get data "total_penalty" (VFloat 0))
      = Returns (total_penalty a) /\
    APIService.validate_errors_summary w (APIService.get data "errors_summary" (VDict ∅))
      = Returns (errors_summary a) /\
    APIService.iterate (APIService.get data "detailed_errors" (VList [])) = Returns errors /\
    APIService.comprehension (APIService.new_DetailedError w) errors
      = Returns (detailed_errors a) /\
    APIService.parse_timestamp w
      (APIService.get data "analysis_timestamp" (VStr (isoformat (now w))))
      = Returns (analysis_timestamp a).
Proof.
  intros Hdata. unfold APIService.parse_response.
  cbn [APIService.as_dict]. cbv beta iota.
  rewrite (get_present body "data" _ _ Hdata).
  destruct (negb (truthy (VDict data))); [done|].
  cbn [APIService.as_dict]. cbv beta iota.
  destruct (APIService.py_float w (APIService.get data "total_duration" _))
    eqn:H1; [|done].
  destruct (APIService.py_float w (APIService.get data "genuinity_score" _))
    eqn:H2; [|done].
  destruct (APIService.py_float w (APIService.get data "total_penalty" _))
    eqn:H3; [|done].
  destruct (APIService.iterate _) as [errors|e] eqn:H4; [|done].
  destruct (APIService.comprehension _ errors) as [des|e] eqn:H5; [|done].
  destruct (APIService.parse_timestamp w _) eqn:H6; [|done].
  destruct (APIService.validate_errors_summary w _) as [summary|e] eqn:H7; [|done].
  intros H. injection H as <-. exists errors. simpl.
  split; [done|]. split; [done|]. split; [done|]. split; [done|].
  split; [done|]. split; [done|]. split; done.
Qed.

(** X11. In a value [analyze_video] returns, the name is the one it was
    called with, a number the response does not give is 0.0 (so a
    response without [genuinity_score] counts as a score of zero), a
    number it gives as a float is taken as it is, a missing
    [errors_summary] is the empty mapping, a missing [detailed_errors]
    the empty list, and a missing time stamp the time of the call. *)
Theorem missing_fields_take_defaults w b n st a st' body data :
  api_post w (posts st) b = Returns (VDict body) ->
  body !! "data" = Some (VDict data) ->
  APIService.analyze_video w b n st = (Returns a, st') ->
  video_name a = n /\
  (data !! "total_duration" = None -> total_duration a = 0%float) /\
  (data !! "genuinity_score" = None -> genuinity_score a = 0%float) /\
  (data !! "total_penalty" = None -> total_penalty a = 0%float) /\
  (forall f, data !! "genuinity_score" = Some (VFloat f) -> genuinity_score a = f) /\
  (data !! "errors_summary" = None -> errors_summary a = ∅) /\
  (data !! "detailed_errors" = None -> detailed_errors a = []) /\
  (data !! "analysis_timestamp" = None ->
   fromisoformat w (isoformat (now w)) = Some (analysis_timestamp a)).
Proof.
  intros Hpost Hdata. rewrite analyze_video_run, Hpost. intros Hrun.
  injection Hrun as Hparse _.
  destruct (parse_response_data w n body data a Hdata Hparse)
    as (errors & Hname & Hdur & Hscore & Hpen & Hsum & Hiter & Hdes & Hts).
  split; [done|].
  split. { intros H. rewrite (get_missing _ _ _ H) in Hdur. simpl in Hdur. congruence. }
  split. { intros H. rewrite (get_missing _ _ _ H) in Hscore. simpl in Hscore. congruence. }
  split. { intros H. rewrite (get_missing _ _ _ H) in Hpen. simpl in Hpen. congruence. }
  split. { intros f H. rewrite (get_present _ _ _ _ H) in Hscore. simpl in Hscore. congruence. }
  split. { intros H. rewrite (get_missing _ _ _ H) in Hsum.
           unfold APIService.validate_errors_summary in Hsum.
           rewrite validate_values_empty in Hsum. congruence. }
  split. { intros H. rewrite (get_missing _ _ _ H) in Hiter. simpl in Hiter.
           injection Hiter as <-. simpl in Hdes. congruence. }
  intros H. rewrite (get_missing _ _ _ H) in Hts. simpl in Hts.
  destruct (fromisoformat w (isoformat (now w))); congruence.
Qed.

Lemma missing_fields_take_defaults_witness :
  exists a,
    APIService.analyze_video
      (with_api_post Demo.world
         (fun _ _ => Returns (VDict {[ "data" := VDict {[ "total_duration" := VInt 3 ]} ]})))
      "QQ==" "a.mp4" [] = (Returns a, [EvPost "QQ=="]) /\
    genuinity_score a = 0%float /\
    detailed_errors a = [].
Proof.
  assert (Hrun : exists a,
    APIService.analyze_video
      (with_api_post Demo.world
         (fun _ _ => Returns (VDict {[ "data" := VDict {[ "total_duration" := VInt 3 ]} ]})))
      "QQ==" "a.mp4" [] = (Returns a, [EvPost "QQ=="]))
    by (eexists; vm_compute; reflexivity).
  destruct Hrun as [a Hrun].
  destruct (missing_fields_take_defaults
              (with_api_post Demo.world
                 (fun _ _ =>
                    Returns (VDict {[ "data" := VDict {[ "total_duration" := VInt 3 ]} ]})))
              "QQ==" "a.mp4" [] a [EvPost "QQ=="]
              {[ "data" := VDict {[ "total_duration" := VInt 3 ]} ]}
              {[ "total_duration" := VInt 3 ]})
    as (_ & _ & Hscore & _ & _ & _ & Hdes & _);
    [reflexivity | reflexivity | exact Hrun |].
  exists a. split; [exact Hrun|]. split; [apply Hscore | apply Hdes]; reflexivity.
Defined.

Lemma new_DetailedError_reads w error de :
  APIService.new_DetailedError w error = Returns de -> reads_as w error de.
Proof.
  unfold APIService.new_DetailedError, APIService.required, reads_as.
  destruct error as [| | | | |l|kw]; try done.
  destruct (kw !! "error_type") as [ty|] eqn:Hty; [|done].
  destruct (kw !! "from_time") as [v1|] eqn:H1; [|done].
  destruct (kw !! "to_time") as [v2|] eqn:H2; [|done].
  destruct (kw !! "confidence") as [v3|] eqn:H3; [|done].
  destruct ty; simpl; try done.
  destruct (APIService.validate_float w v1) as [f1|] eqn:Hf1; [|done].
  destruct (APIService.validate_float w v2) as [f2|] eqn:Hf2; [|done].
  destruct (APIService.validate_float w v3) as [f3|] eqn:Hf3; [|done].
  intros H. injection H as <-. exists kw, v1, v2, v3. simpl.
  split; [done|]. split; [done|]. split; [done|]. split; [done|].
  split; [done|]. split; [done|]. split; done.
Qed.

Lemma comprehension_Forall2 {A B} (f : A -> outcome B) xs ys :
  APIService.comprehension f xs = Returns ys ->
  Forall2 (fun x y => f x = Returns y) xs ys.
Proof.
  revert ys. induction xs as [|x xs IH]; intros ys; simpl.
  - intros H. injection H as <-. constructor.
  - destruct (f x) as [y|e] eqn:Hx; [|done].
    destruct (APIService.comprehension f xs) as [ys'|e]; [|done].
    intros H. injection H as <-. constructor; [done | by apply IH].
Qed.

(** X12. When the response lists [detailed_errors], a value
    [analyze_video] returns has one [DetailedError] for each item of the
    list, in the order of the list, read from that item; so one item
    that is not a well-formed error makes the whole call raise. *)
Theorem detailed_errors_follow_response w b n st a st' body data errors :
  api_post w (posts st) b = Returns (VDict body) ->
  body !! "data" = Some (VDict data) ->
  data !! "detailed_errors" = Some (VList errors) ->
  APIService.analyze_video w b n st = (Returns a, st') ->
  Forall2 (reads_as w) errors (detailed_errors a) /\
  length (detailed_errors a) = length errors.
Proof.
  intros Hpost Hdata Herrors. rewrite analyze_video_run, Hpost. intros Hrun.
  injection Hrun as Hparse _.
  destruct (parse_response_data w n body data a Hdata Hparse)
    as (errors' & _ & _ & _ & _ & _ & Hiter & Hdes & _).
  rewrite (get_present _ _ _ _ Herrors) in Hiter. simpl in Hiter.
  injection Hiter as <-.
  apply comprehension_Forall2 in Hdes.
  assert (H : Forall2 (reads_as w) errors (detailed_errors a)).
  { eapply Forall2_impl; [exact Hdes|]. intros x y. apply new_DetailedError_reads. }
  split; [done|]. symmetry. by eapply Forall2_length.
Qed.

Lemma detailed_errors_follow_response_witness :
  exists a,
    APIService.analyze_video
      (with_api_post Demo.world
         (fun _ _ =>
            Returns (VDict {[ "data" := VDict {[ "detailed_errors" :=
              VList [VDict {[ "error_type" := VStr "looking_away";
                              "from_time" := VInt 1;
                              "to_time" := VFloat 2.5;
                              "confidence" := VFloat 0.5 ]}] ]} ]})))
      "QQ==" "a.mp4" [] = (Returns a, [EvPost "QQ=="]) /\
    length (detailed_errors a) = 1%nat.
Proof.
  assert (Hrun : exists a,
    APIService.analyze_video
      (with_api_post Demo.world
         (fun _ _ =>
            Returns (VDict {[ "data" := VDict {[ "detailed_errors" :=
              VList [VDict {[ "error_type" := VStr "looking_away";
                              "from_time" := VInt 1;
                              "to_time" := VFloat 2.5;
                              "confidence" := VFloat 0.5 ]}] ]} ]})))
      "QQ==" "a.mp4" [] = (Returns a, [EvPost "QQ=="]))
    by (eexists; vm_compute; reflexivity).
  destruct Hrun as [a Hrun].
  destruct (detailed_errors_follow_response
              (with_api_post Demo.world
                 (fun _ _ =>
                    Returns (VDict {[ "data" := VDict {[ "detailed_errors" :=
                      VList [VDict {[ "error_type" := VStr "looking_away";
                                      "from_time" := VInt 1;
                                      "to_time" := VFloat 2.5;
                                      "confidence" := VFloat 0.5 ]}] ]} ]})))
              "QQ==" "a.mp4" [] a [EvPost "QQ=="]
              {[ "data" := VDict {[ "detailed_errors" :=
                   VList [VDict {[ "error_type" := VStr "looking_away";
                                   "from_time" := VInt 1;
                                   "to_time" := VFloat 2.5;
                                   "confidence" := VFloat 0.5 ]}] ]} ]}
              {[ "detailed_errors" :=
                   VList [VDict {[ "error_type" := VStr "looking_away";
                                   "from_time" := VInt 1;
                                   "to_time" := VFloat 2.5;
                                   "confidence" := VFloat 0.5 ]}] ]}
              [VDict {[ "error_type" := VStr "looking_away";
                        "from_time" := VInt 1;
                        "to_time" := VFloat 2.5;
                        "confidence" := VFloat 0.5 ]}])
    as [_ Hlen]; [reflexivity | reflexivity | reflexivity | exact Hrun |].
  exists a. split; [exact Hrun | exact Hlen].
Defined.

(** ** The controller *)

Lemma validate_dicts_summaries (rs : list VideoSummary) :
  VideoController.validate_dicts (VList (map (fun r => VDict (summary_dict r)) rs)) =
  Returns (map summary_dict rs).
Proof.
  unfold VideoController.validate_dicts.
  assert (H : APIService.comprehension VideoController.validate_dict
                (map (fun r => VDict (summary_dict r)) rs) =
              Returns (map summary_dict rs)).
  { induction rs as [|r rs IH]; [reflexivity|].
    cbn [map APIService.comprehension VideoController.validate_dict].
    by rewrite IH. }
  by rewrite H.
Qed.

Lemma new_AnalyzeResponse_success rt w id rs avg o :
  VideoController.new_AnalyzeResponse rt w (success_result id rs avg (opt_str o)) =
  Returns {| VideoController.response_interview_id := id;
             VideoController.videos_analyzed := Z.of_nat (length rs);
             VideoController.average_genuinity_score := PyFloat.round avg 4;
             VideoController.individual_scores := map summary_dict rs;
             VideoController.status := "success";
             VideoController.message :=
               "Successfully analyzed " +:+ pretty (length rs) +:+ " videos";
             VideoController.pdf_report_path := opt_path o |}.
Proof.
  unfold VideoController.new_AnalyzeResponse, APIService.required.
  change (success_result id rs avg (opt_str o) !! "interview_id") with (Some (VStr id)).
  change (success_result id rs avg (opt_str o) !! "videos_analyzed")
    with (Some (VInt (Z.of_nat (length rs)))).
  change (success_result id rs avg (opt_str o) !! "average_genuinity_score")
    with (Some (VFloat (PyFloat.round avg 4))).
  change (success_result id rs avg (opt_str o) !! "individual_scores")
    with (Some (VList (map (fun r => VDict (summary_dict r)) rs))).
  change (success_result id rs avg (opt_str o) !! "status") with (Some (VStr "success")).
  change (success_result id rs avg (opt_str o) !! "message")
    with (Some (VStr ("Successfully analyzed " +:+ pretty (length rs) +:+ " videos"))).
  change (success_result id rs avg (opt_str o) !! "pdf_report_path")
    with (Some (opt_str o)).
  cbv beta iota.
  rewrite validate_dicts_summaries.
  cbn [APIService.validate_str VideoController.validate_int APIService.validate_float
       APIService.py_float].
  by destruct o.
Qed.

(** X13. What [analyze_interview] answers follows the service alone: a
    response only for a success result, whose fields it copies (the
    count is positive and is the number of individual scores, the report
    path is the one of the result); a 404 only for an error result, with
    the message of the result as detail; a 500 only when the service
    raised, with the text of that exception in the detail.  The result
    of the service never fails the response schema, and the controller
    leaves the trace of the service as it is. *)
Theorem analyze_interview_answers rt w request st :
  let run := analyze_videos w (VideoController.interview_id request)
               (VideoController.num_videos request) st in
  snd (VideoController.analyze_interview rt w request st) = snd run /\
  match fst (VideoController.analyze_interview rt w request st) with
  | VideoController.Responds r =>
      exists d, fst run = Returns d /\
        d !! "status" = Some (VStr "success") /\
        VideoController.status r = "success" /\
        VideoController.response_interview_id r = VideoController.interview_id request /\
        VideoController.videos_analyzed r =
          Z.of_nat (length (VideoController.individual_scores r)) /\
        0 < VideoController.videos_analyzed r /\
        d !! "pdf_report_path" =
          Some (match VideoController.pdf_report_path r with
                | Some p => VStr p
                | None => VNone
                end)
  | VideoController.HTTPException code detail =>
      (code = 404 /\
       exists d, fst run = Returns d /\
         d !! "status" = Some (VStr "error") /\ d !! "message" = Some detail) \/
      (code = 500 /\
       exists e, fst run = Raises e /\
         detail = VStr ("Internal server error: " +:+ VideoController.exn_text rt e))
  end.
Proof.
  intros run. subst run. unfold VideoController.analyze_interview.
  destruct request as [id num]. cbn [VideoController.interview_id VideoController.num_videos].
  rewrite analyze_videos_run.
  destruct (get_video_files w id) as [[|f files]|e].
  - split; [reflexivity|]. left. split; [reflexivity|].
    exists (no_videos_result id). repeat split; reflexivity.
  - destruct (select_random_videos w (f :: files) num st) as [[sel|e] st1].
    + cbv zeta.
      destruct (successes (item_outcomes w sel st1)) as [|s succ] eqn:Hsucc.
      * cbn [is_empty]. split; [reflexivity|]. left. split; [reflexivity|].
        exists all_failed_result. repeat split; reflexivity.
      * cbn [is_empty].
        set (rs := map fst (s :: succ)).
        set (avg := mean w (map summary_genuinity_score rs)).
        set (report := PDFService.generate_report w id avg rs (map snd (s :: succ)) _).
        change (success_result id rs avg (opt_str (fst report)) !! "status")
          with (Some (VStr "success")).
        cbn [VideoController.eq_str String.eqb Ascii.eqb Bool.eqb].
        rewrite new_AnalyzeResponse_success.
        split; [reflexivity|].
        exists (success_result id rs avg (opt_str (fst report))).
        cbn [fst VideoController.status VideoController.response_interview_id
             VideoController.videos_analyzed VideoController.individual_scores
             VideoController.pdf_report_path].
        split; [reflexivity|]. split; [reflexivity|]. split; [reflexivity|].
        split; [reflexivity|]. split; [by rewrite length_map|].
        split; [subst rs; cbn [map length]; lia|].
        change (success_result id rs avg (opt_str (fst report)) !! "pdf_report_path")
          with (Some (opt_str (fst report))).
        by destruct (fst report).
    + split; [reflexivity|]. right. split; [reflexivity|]. by exists e.
  - split; [reflexivity|]. right. split; [reflexivity|]. by exists e.
Qed.

(** ** Where the report is written *)

Lemma prefix_empty s : String.prefix "" s = true.
Proof. by destruct s. Qed.

Lemma prefix_append a x : String.prefix a (a +:+ x) = true.
Proof.
  induction a as [|c a IH]; [apply prefix_empty|].
  change (String c a +:+ x) with (String c (a +:+ x)).
  cbn [String.prefix]. by destruct (ascii_dec c c).
Qed.

Lemma starts_with_slash_append id x :
  Str.starts_with "/" (id +:+ String "_" x) = Str.starts_with "/" id.
Proof.
  unfold Str.starts_with. destruct id as [|c id].
  - change ("" +:+ String "_" x) with (String "_" x).
    cbn [String.prefix]. by destruct (ascii_dec "/" "_").
  - change (String c id +:+ String "_" x) with (String c (id +:+ String "_" x)).
    cbn [String.prefix].
    destruct (ascii_dec "/" c); [|done]. by rewrite !prefix_empty.
Qed.

Lemma starts_with_slash_chars s :
  ~ In "/"%char (chars s) -> Str.starts_with "/" s = false.
Proof.
  unfold Str.starts_with, chars. destruct s as [|c s]; [done|].
  cbn [String.prefix list_ascii_of_string]. intros Hin.
  destruct (ascii_dec "/" c) as [<-|]; [|done]. exfalso. apply Hin. by left.
Qed.

Lemma ends_with_slash a :
  String.eqb (Str.drop (String.length a - 1) a) "/" = true ->
  exists s, a = s +:+ "/".
Proof.
  induction a as [|c a IH]; [done|].
  cbn [String.length]. replace (S (String.length a) - 1)%nat with (String.length a) by lia.
  destruct a as [|c' a'].
  - cbn [String.length Str.drop]. intros H. apply String.eqb_eq in H. exists "". by rewrite H.
  - cbn [String.length Str.drop]. intros H.
    destruct IH as [s Hs].
    { cbn [String.length].
      by replace (S (String.length a') - 1)%nat with (String.length a') by lia. }
    exists (String c s). change (String c s +:+ "/") with (String c (s +:+ "/")).
    by rewrite Hs.
Qed.

Lemma basename_after_slash s n :
  ~ In "/"%char (chars n) -> PyPath.basename (s +:+ String "/" n) = n.
Proof.
  intros Hn. unfold PyPath.basename. rewrite (rfind_app "/" s n Hn). unfold Str.len.
  replace (Z.to_nat (Z.of_nat (String.length s) + 1))
    with (String.length (s +:+ "/")) by (rewrite length_append; simpl; lia).
  change (s +:+ String "/" n) with (s +:+ "/" +:+ n).
  rewrite <- append_assoc. apply drop_app.
Qed.

(** X14. A report that [generate_report] returns is named after the
    interview id and the time stamp.  For an id without a slash (and a
    time stamp without one) the report is a file of that name directly
    under the output directory; for an id that starts with a slash the
    output directory is dropped and the report is written at the name
    itself. *)
Theorem report_is_named_after_id w id avg rs ds st p st' :
  PDFService.generate_report w id avg rs ds st = (Returns p, st') ->
  let filename := id +:+ "_" +:+ report_stamp w +:+ ".pdf" in
  (Str.starts_with "/" id = true -> p = filename) /\
  (~ In "/"%char (chars id) -> ~ In "/"%char (chars (report_stamp w)) ->
   PyPath.basename p = filename /\
   Str.starts_with (PDF_OUTPUT_PATH (settings w)) p = true).
Proof.
  rewrite generate_report_run. cbv zeta.
  destruct (pdf_build w _ id avg rs ds); [done|]. intros H. injection H as <- _.
  set (filename := id +:+ "_" +:+ report_stamp w +:+ ".pdf").
  set (a := PDF_OUTPUT_PATH (settings w)).
  unfold PyPath.os_path_join. split.
  - intros Hid. subst filename. change ("_" +:+ report_stamp w +:+ ".pdf")
      with (String "_" (report_stamp w +:+ ".pdf")).
    by rewrite starts_with_slash_append, Hid.
  - intros Hid Hstamp.
    assert (Hname : ~ In "/"%char (chars filename)).
    { subst filename. rewrite !chars_append, !in_app_iff.
      intros [H|[H|[H|H]]]; [done| |done|].
      - vm_compute in H. destruct H as [H|[]]. discriminate.
      - vm_compute in H. repeat (destruct H as [H|H]; [discriminate|]). done. }
    rewrite (starts_with_slash_chars filename Hname).
    destruct (String.eqb a "") eqn:Hempty.
    + apply String.eqb_eq in Hempty. rewrite Hempty. cbn [orb].
      change ("" +:+ filename) with filename.
      split; [|apply prefix_empty].
      unfold PyPath.basename. by rewrite (rfind_absent "/" filename Hname).
    + cbn [orb].
      destruct (String.eqb (Str.drop (String.length a - 1) a) "/") eqn:Hend.
      * split; [|apply prefix_append].
        destruct (ends_with_slash a Hend) as [s ->].
        rewrite append_assoc. by apply basename_after_slash.
      * split; [|apply prefix_append].
        by apply basename_after_slash.
Qed.

Lemma report_is_named_after_id_witness :
  PyPath.basename "./reports/INT1_20240101_000000.pdf" = "INT1_20240101_000000.pdf" /\
  Str.starts_with "./reports" "./reports/INT1_20240101_000000.pdf" = true.
Proof.
  destruct (report_is_named_after_id Demo.world "INT1" 7 [] [] []
              "./reports/INT1_20240101_000000.pdf"
              [EvReport "./reports/INT1_20240101_000000.pdf"]) as [_ H].
  - vm_compute. reflexivity.
  - apply H.
    + vm_compute. intros H'. repeat (destruct H' as [H'|H']; [discriminate|]). exact H'.
    + vm_compute. intros H'. repeat (destruct H' as [H'|H']; [discriminate|]). exact H'.
Defined.

(** ** A storage location that is not a directory *)

(** X15. When the storage location of an interview is a regular file,
    [get_video_files] raises instead of returning no candidates: the
    service raises [NotADirectoryError] before anything is drawn, opened,
    sent or reported, and the controller answers 500, not 404. *)
Theorem file_as_storage_location w id content :
  FS.stat (fs w) (video_folder w id) = Returns (FS.File content) ->
  get_video_files w id = Raises NotADirectoryError /\
  (forall num st, analyze_videos w id num st = (Raises NotADirectoryError, st)) /\
  (forall rt num st,
     VideoController.analyze_interview rt w
       {| VideoController.interview_id := id; VideoController.num_videos := num |} st =
     (VideoController.HTTPException 500
        (VStr ("Internal server error: "
               +:+ VideoController.exn_text rt NotADirectoryError)), st)).
Proof.
  intros Hstat.
  assert (Hfiles : get_video_files w id = Raises NotADirectoryError).
  { unfold get_video_files, FS.exists_, FS.iterdir. by rewrite Hstat. }
  assert (Hrun : forall num st, analyze_videos w id num st = (Raises NotADirectoryError, st)).
  { intros num st. by rewrite analyze_videos_run, Hfiles. }
  split; [exact Hfiles|]. split; [exact Hrun|].
  intros rt num st. unfold VideoController.analyze_interview.
  cbn [VideoController.interview_id VideoController.num_videos].
  by rewrite Hrun.
Qed.

Lemma file_as_storage_location_witness :
  get_video_files Demo.world "stray.mp4" = Raises NotADirectoryError.
Proof.
  apply (file_as_storage_location Demo.world "stray.mp4" (Some [])).
  vm_compute. reflexivity.
Defined.
